(** * PlaylistDownloader: a shallow embedding of the downloader package and its CLI

    The development follows the layout of the repository:

    - [Py]         the fragment of Python's string, [re], [urllib.parse] and
                   [pathlib] behaviour that the sources rely on;
    - [YtDlp]      the data exchanged with the yt-dlp library;
    - [Effects]    the outside world (executable search path, filesystem,
                   yt-dlp, standard input) and the monad the effectful code
                   runs in;
    - [Config]     [downloader/config.py];
    - [Validators] [downloader/validators.py];
    - [Service]    [downloader/youtube_service.py];
    - [Cli]        [main.py];
    - [Spec], [Examples], [SpecExtra], [MoreExamples]  the vocabulary of
                   the statements and concrete hosts to run the program on;

    followed by the lemmas and the theorems.

    A Python string is a Rocq string, character for character; the string
    operations are those of Python on ASCII text.  Python integers are [Z]. *)

From Stdlib Require Import Bool Ascii String List ZArith NArith Lia.
Import ListNotations.
Local Open Scope string_scope.

Set Implicit Arguments.

(* ===================================================================== *)
(** ** Python library behaviour used by the sources *)
(* ===================================================================== *)

Module Py.

(** *** Characters and strings *)

Definition code (c : ascii) : N := N_of_ascii c.

Definition in_range (lo hi : N) (c : ascii) : bool :=
  (lo <=? code c)%N && (code c <=? hi)%N.

(** [str.isspace] on the ASCII range: TAB..CR, FS..US and the space. *)
Definition is_space (c : ascii) : bool :=
  in_range 9 13 c || in_range 28 32 c.

Definition is_upper (c : ascii) : bool := in_range 65 90 c.
Definition is_lower (c : ascii) : bool := in_range 97 122 c.
Definition is_alpha (c : ascii) : bool := is_upper c || is_lower c.
Definition is_digit (c : ascii) : bool := in_range 48 57 c.

Definition lower_char (c : ascii) : ascii :=
  if is_upper c then ascii_of_N (code c + 32) else c.

Fixpoint lower (s : string) : string :=
  match s with
  | EmptyString => EmptyString
  | String c s' => String (lower_char c) (lower s')
  end.

Definition is_empty (s : string) : bool :=
  match s with EmptyString => true | _ => false end.

Fixpoint lstrip (s : string) : string :=
  match s with
  | EmptyString => EmptyString
  | String c s' => if is_space c then lstrip s' else s
  end.

Fixpoint rstrip (s : string) : string :=
  match s with
  | EmptyString => EmptyString
  | String c s' =>
      let r := rstrip s' in
      if is_empty r && is_space c then EmptyString else String c r
  end.

(** [s.strip()] *)
Definition strip (s : string) : string := rstrip (lstrip s).

(** [needle in hay] for two strings: substring test. *)
Fixpoint str_in (needle hay : string) : bool :=
  String.prefix needle hay ||
  match hay with
  | EmptyString => false
  | String _ hay' => str_in needle hay'
  end.

(** [c in s] for a character. *)
Fixpoint char_in (c : ascii) (s : string) : bool :=
  match s with
  | EmptyString => false
  | String d s' => Ascii.eqb c d || char_in c s'
  end.

Fixpoint forallb_str (p : ascii -> bool) (s : string) : bool :=
  match s with
  | EmptyString => true
  | String c s' => p c && forallb_str p s'
  end.

Fixpoint filter_str (p : ascii -> bool) (s : string) : string :=
  match s with
  | EmptyString => EmptyString
  | String c s' => if p c then String c (filter_str p s') else filter_str p s'
  end.

(** [s.split(sep)] for a one-character separator: the fields between the
    separators, empty fields included; never the empty list. *)
Fixpoint split_on (sep : ascii) (s : string) : list string :=
  match s with
  | EmptyString => [EmptyString]
  | String c s' =>
      if Ascii.eqb c sep then EmptyString :: split_on sep s'
      else match split_on sep s' with
           | [] => [String c EmptyString]
           | f :: fs => String c f :: fs
           end
  end.

(** [sep.join(parts)] *)
Fixpoint join (sep : string) (xs : list string) : string :=
  match xs with
  | [] => EmptyString
  | [x] => x
  | x :: xs' => x ++ sep ++ join sep xs'
  end.

(** *** Values that may reach a function annotated [url: str] *)

Inductive pyobj :=
| ObjNone
| ObjBool (b : bool)
| ObjInt (z : Z)
| ObjBytes (b : string)
| ObjStr (s : string).

Definition truthy (o : pyobj) : bool :=
  match o with
  | ObjNone => false
  | ObjBool b => b
  | ObjInt z => negb (z =? 0)%Z
  | ObjBytes b => negb (is_empty b)
  | ObjStr s => negb (is_empty s)
  end.

Definition isinstance_str (o : pyobj) : bool :=
  match o with ObjStr _ => true | _ => false end.

(** *** Regular expressions ([re]), matched by derivatives *)

Inductive regex :=
| RNone                          (* matches nothing *)
| REps                           (* matches the empty string *)
| RChar (c : ascii)              (* a literal character *)
| RDot                           (* [.]: any character but a newline *)
| RSeq (r1 r2 : regex)
| RAlt (r1 r2 : regex)
| RStar (r : regex).

Definition ROpt (r : regex) : regex := RAlt r REps.      (* r? *)
Definition RPlus (r : regex) : regex := RSeq r (RStar r). (* r+ *)

Fixpoint RLit (s : string) : regex :=
  match s with
  | EmptyString => REps
  | String c s' => RSeq (RChar c) (RLit s')
  end.

Fixpoint nullable (r : regex) : bool :=
  match r with
  | RNone => false
  | REps => true
  | RChar _ => false
  | RDot => false
  | RSeq r1 r2 => nullable r1 && nullable r2
  | RAlt r1 r2 => nullable r1 || nullable r2
  | RStar _ => true
  end.

Definition newline : ascii := ascii_of_N 10.

(** Character comparison; with [re.IGNORECASE] letters compare by their
    lower-case form. *)
Definition char_matches (ignorecase : bool) (p c : ascii) : bool :=
  if ignorecase then Ascii.eqb (lower_char p) (lower_char c) else Ascii.eqb p c.

Fixpoint deriv (ic : bool) (r : regex) (c : ascii) : regex :=
  match r with
  | RNone => RNone
  | REps => RNone
  | RChar p => if char_matches ic p c then REps else RNone
  | RDot => if Ascii.eqb c newline then RNone else REps
  | RSeq r1 r2 =>
      if nullable r1
      then RAlt (RSeq (deriv ic r1 c) r2) (deriv ic r2 c)
      else RSeq (deriv ic r1 c) r2
  | RAlt r1 r2 => RAlt (deriv ic r1 c) (deriv ic r2 c)
  | RStar r1 => RSeq (deriv ic r1 c) (RStar r1)
  end.

(** [pattern.match(s)] is not [None]: some prefix of [s] is in the language. *)
Fixpoint re_match (ic : bool) (r : regex) (s : string) : bool :=
  nullable r ||
  match s with
  | EmptyString => false
  | String c s' => re_match ic (deriv ic r c) s'
  end.

(** *** [urllib.parse.urlparse], the [scheme] and [netloc] attributes *)

Record parse_result := ParseResult { scheme : string; netloc : string }.

Definition is_scheme_char (c : ascii) : bool :=
  is_alpha c || is_digit c || char_in c "+-.".

(** Text before / after the first occurrence of a separator. *)
Fixpoint before (p : ascii -> bool) (s : string) : string :=
  match s with
  | EmptyString => EmptyString
  | String c s' => if p c then EmptyString else String c (before p s')
  end.

Fixpoint from_first (p : ascii -> bool) (s : string) : option string :=
  match s with
  | EmptyString => None
  | String c s' => if p c then Some s' else from_first p s'
  end.

Definition is_c0_or_space (c : ascii) : bool := (code c <=? 32)%N.
Definition is_unsafe (c : ascii) : bool :=
  Ascii.eqb c (ascii_of_N 9) || Ascii.eqb c (ascii_of_N 10) || Ascii.eqb c (ascii_of_N 13).

Fixpoint lstrip_by (p : ascii -> bool) (s : string) : string :=
  match s with
  | EmptyString => EmptyString
  | String c s' => if p c then lstrip_by p s' else s
  end.

Definition is_colon (c : ascii) : bool := Ascii.eqb c ":".
Definition is_netloc_end (c : ascii) : bool := char_in c "/?#".

(** [urlsplit]: leading control characters and spaces are dropped, TAB, LF
    and CR are removed, a scheme is what precedes the first colon when it
    starts with a letter and consists of scheme characters (it is
    lower-cased; the netloc is kept as written), and the netloc is what
    follows a double slash up to the next slash, question mark or hash.
    [None] stands for the [ValueError] raised on unbalanced brackets. *)
Definition urlparse (url : string) : option parse_result :=
  let url := filter_str (fun c => negb (is_unsafe c)) (lstrip_by is_c0_or_space url) in
  let '(sch, rest) :=
    match from_first is_colon url with
    | Some after =>
        let pre := before is_colon url in
        match pre with
        | String c0 _ =>
            if is_alpha c0 && forallb_str is_scheme_char pre
            then (lower pre, after) else (EmptyString, url)
        | EmptyString => (EmptyString, url)
        end
    | None => (EmptyString, url)
    end in
  match rest with
  | String "/" (String "/" rest') =>
      let nl := before is_netloc_end rest' in
      if xorb (char_in "[" nl) (char_in "]" nl) then None
      else Some (ParseResult sch nl)
  | _ => Some (ParseResult sch EmptyString)
  end.

(** *** [pathlib]: pure POSIX paths *)

(** A path is its root flag and its components; [Path(s)] drops empty and
    [.] components, so [Path("a//b/./c")] has the parts [a; b; c]. *)
Record path := Path { is_abs : bool; parts : list string }.

Definition keep_part (f : string) : bool :=
  negb (is_empty f) && negb (String.eqb f ".").

Definition path_of_string (s : string) : path :=
  Path (String.prefix "/" s) (filter keep_part (split_on "/" s)).

(** [str(p)] *)
Definition path_str (p : path) : string :=
  if is_abs p then "/" ++ join "/" (parts p)
  else match parts p with
       | [] => "."
       | ps => join "/" ps
       end.

(** [p / q]: an absolute right operand replaces the left one. *)
Definition joinpath (p q : path) : path :=
  if is_abs q then q else Path (is_abs p) (parts p ++ parts q)%list.

Definition path_div (p : path) (s : string) : path :=
  joinpath p (path_of_string s).

(** [p.name]: the last component, or the empty string. *)
Definition name (p : path) : string := last (parts p) EmptyString.

(** [p.parent] *)
Definition parent (p : path) : path := Path (is_abs p) (removelast (parts p)).

(** An argument annotated [str | Path], and [Path(x)] on it. *)
Inductive pathlike := PStr (s : string) | PPath (p : path).

Definition Path_ (x : pathlike) : path :=
  match x with
  | PStr s => path_of_string s
  | PPath p => p
  end.

(** Resolution of [..] against an absolute prefix, as the kernel does
    where no component is a symbolic link; [..] at the root stays there. *)
Fixpoint normalize_onto (acc : list string) (ps : list string) : list string :=
  match ps with
  | [] => acc
  | p :: ps' =>
      if String.eqb p ".." then normalize_onto (removelast acc) ps'
      else normalize_onto (acc ++ [p])%list ps'
  end.

(** Where a path points when it is read from the directory [cwd] and none
    of its components is a symbolic link. *)
Definition lexical (cwd : list string) (p : path) : list string :=
  normalize_onto (if is_abs p then [] else cwd) (parts p).

Fixpoint is_prefix (xs ys : list string) : bool :=
  match xs, ys with
  | [], _ => true
  | x :: xs', y :: ys' => String.eqb x y && is_prefix xs' ys'
  | _ :: _, [] => false
  end.

(** *** Exceptions, all subclasses of [Exception] *)

Inductive exn :=
| RuntimeError (msg : string)
| OSError (msg : string)
| DownloadError (msg : string)          (* yt_dlp.utils.DownloadError *)
| OtherError (cls msg : string).        (* any other [Exception] *)

End Py.

(* ===================================================================== *)
(** ** The yt-dlp interface, as the service sees it *)
(* ===================================================================== *)

Module YtDlp.
Import Py.

(** An item of a playlist listing is an info dict, which always carries its
    video id, or [None] where the item could not be fetched. *)
Record entry_info := EntryInfo {
  entry_id : string;
  entry_fields : list (string * string)
}.

Definition entry := option entry_info.

(** [len(d)] of an item's dict: the [id] key and the others. *)
Definition entry_len (d : entry_info) : nat := S (length (entry_fields d)).

(** Truth value of a list element [e] in [if e]. *)
Definition entry_truthy (e : entry) : bool :=
  match e with
  | None => false
  | Some d => negb (Nat.eqb (entry_len d) 0)
  end.

(** The dict returned by [extract_info]: the [entries] key may be absent,
    hold [None], or hold a list; the other keys are kept as they are. *)
Record info_dict := InfoDict {
  info_entries : option (option (list entry));
  info_fields : list (string * string)
}.

Definition info_len (d : info_dict) : nat :=
  (match info_entries d with Some _ => 1 | None => 0 end + length (info_fields d))%nat.

(** Truth value of [info] in [if not info], for [info : dict | None]. *)
Definition info_truthy (info : option info_dict) : bool :=
  match info with
  | None => false
  | Some d => negb (Nat.eqb (info_len d) 0)
  end.

(** [info.get("entries")] *)
Definition get_entries (d : info_dict) : option (list entry) :=
  match info_entries d with
  | Some v => v
  | None => None
  end.

Record postprocessor := PostProcessor {
  pp_key : string;
  pp_preferredcodec : string
}.

(** The options dict handed to [YoutubeDL]; an absent key is [None]. The
    [progress_hooks] are passed beside it, being closures. *)
Record ydl_opts := YdlOpts {
  opt_format : string;
  opt_outtmpl : string;
  opt_ignoreerrors : bool;
  opt_no_warnings : bool;
  opt_quiet : bool;
  opt_extract_flat : bool;
  opt_postprocessors : option (list postprocessor);
  opt_postprocessor_args : option (list (string * list string))
}.

(** The dict a progress hook receives, restricted to the keys read. *)
Record hook_dict := HookDict {
  hd_status : option string;
  hd_filename : option pathlike;      (* a [str] or a [Path] *)
  hd_title : option string;          (* d["info_dict"]["title"] *)
  hd_percent_str : option string
}.

End YtDlp.

(* ===================================================================== *)
(** ** The outside world and the monad of effects *)
(* ===================================================================== *)

Module Effects.
Import Py YtDlp.

(** What the environment answers.  The state of a run holds the
    directories that exist, named by their components from the root, each
    of them open to search.  Symbolic links are not part of that state:
    they show in what the host answers when a path is resolved
    ([realpath]), an answer that creating directories does not change.
    The standard input holds text that can be decoded. *)
Record world := World {
  which : string -> option string;              (* shutil.which *)
  home : option (list string);                  (* home of the invoking user *)
  user_home : string -> option (list string);   (* homes of named users *)
  cwd : list string;
  app_root : list string;                       (* parent of the package *)
  may_create : list string -> bool;             (* mkdir permitted here *)
  extract_info : string -> exn + option info_dict;
  ydl_download : ydl_opts -> string -> list hook_dict * option exn;
  stdin_line : option string;                   (* None: EOF or interrupt *)
  realpath : path -> exn + list string;         (* Path.resolve: the components
                                                   of the absolute result, or
                                                   the error raised *)
  ydl_creates : ydl_opts -> string -> list (list string)
                                                (* the folders a download makes *)
}.

Inductive level := DEBUG | INFO | WARNING | ERROR.

Inductive log_arg :=
| AStr (s : string)
| AInt (z : Z)
| APath (p : path)
| AExn (e : exn).

(** A call to a logger: level, format string, arguments, and whether the
    traceback is attached ([logger.exception]). *)
Record log_record := LogRecord {
  lvl : level;
  fmt : string;
  args : list log_arg;
  exc_info : bool
}.

Inductive event :=
| EvWhich (cmd : string)
| EvMkdir (dir : list string)                   (* a directory was created *)
| EvExtractInfo (url : string)                  (* network: metadata query *)
| EvDownload (opts : ydl_opts) (url : string)   (* network: download *)
| EvInput (prompt : string)
| EvSetLevel (l : level)
| EvCallback (current : Z) (total : option Z) (filename status : string)
                                                (* the progress callback is called *)
| EvLog (r : log_record).

(** The state a run threads: the directories that exist, the events so far
    (newest first), and the mutable cells closures share. *)
Record state := State {
  dirs : list (list string);
  trace : list event;
  next_ref : nat;
  cells : nat -> Z
}.

Inductive result (A : Type) :=
| Ok (a : A)
| Raise (e : exn).
Arguments Ok {A} a.
Arguments Raise {A} e.

(** A raised exception keeps the state reached so far. *)
Definition M (A : Type) : Type := state -> result A * state.

Definition ret {A} (a : A) : M A := fun st => (Ok a, st).

Definition bind {A B} (m : M A) (k : A -> M B) : M B :=
  fun st =>
    match m st with
    | (Ok a, st') => k a st'
    | (Raise e, st') => (Raise e, st')
    end.

Definition raise {A} (e : exn) : M A := fun st => (Raise e, st).

(** [try: m  except Exception as e: handler e]; a handler re-raises what
    its clauses do not cover. *)
Definition try_except {A} (m : M A) (handler : exn -> M A) : M A :=
  fun st =>
    match m st with
    | (Ok a, st') => (Ok a, st')
    | (Raise e, st') => handler e st'
    end.

Declare Scope py_scope.
Delimit Scope py_scope with py.
Notation "x <- m ;; k" := (bind m (fun x => k))
  (at level 61, m at next level, right associativity) : py_scope.
Notation "m ;; k" := (bind m (fun _ => k))
  (at level 61, right associativity) : py_scope.
Local Open Scope py_scope.

Definition emit (e : event) : M unit :=
  fun st => (Ok tt, State (dirs st) (e :: trace st) (next_ref st) (cells st)).

(** *** Mutable cells: the one-element lists a closure captures *)

Definition new_cell (v : Z) : M nat :=
  fun st =>
    let r := next_ref st in
    (Ok r, State (dirs st) (trace st) (S r)
                 (fun i => if Nat.eqb i r then v else cells st i)).

Definition read_cell (r : nat) : M Z := fun st => (Ok (cells st r), st).

Definition write_cell (r : nat) (v : Z) : M unit :=
  fun st =>
    (Ok tt, State (dirs st) (trace st) (next_ref st)
                  (fun i => if Nat.eqb i r then v else cells st i)).

(** *** Logging *)

Definition log (l : level) (f : string) (a : list log_arg) (exc : bool) : M unit :=
  emit (EvLog (LogRecord l f a exc)).

Definition logger_debug f a := log DEBUG f a false.
Definition logger_info f a := log INFO f a false.
Definition logger_error f a := log ERROR f a false.
Definition logger_exception f a := log ERROR f a true.

Fixpoint log_all (rs : list log_record) : M unit :=
  match rs with
  | [] => ret tt
  | r :: rs' => emit (EvLog r) ;; log_all rs'
  end.

(** *** Filesystem *)

Fixpoint mem_dir (d : list string) (ds : list (list string)) : bool :=
  match ds with
  | [] => false
  | d' :: ds' => (if list_eq_dec string_dec d d' then true else false) || mem_dir d ds'
  end.

(** The root always exists. *)
Definition dir_exists (st : state) (d : list string) : bool :=
  match d with [] => true | _ => mem_dir d (dirs st) end.

Definition add_dir (d : list string) : M unit :=
  fun st => (Ok tt, State (d :: dirs st) (EvMkdir d :: trace st) (next_ref st) (cells st)).

(** All non-empty prefixes of a path, shortest first. *)
Fixpoint prefixes_from (acc : list string) (ps : list string) : list (list string) :=
  match ps with
  | [] => []
  | p :: ps' => (acc ++ [p])%list :: prefixes_from (acc ++ [p])%list ps'
  end.

Section WithWorld.
Variable w : world.

(** Where a path points, seen from the working directory. *)
Definition absolute (p : path) : list string :=
  if is_abs p then normalize_onto [] (parts p)
  else normalize_onto (cwd w) (parts p).

(** The directories the path leads through as it is written, the one it
    names last: what each of its prefixes points to.  For [a/../b] these
    are [a], the directory [a/..] and [b]. *)
Definition on_the_way (p : path) : list (list string) :=
  map (normalize_onto (if is_abs p then [] else cwd w)) (prefixes_from [] (parts p)).

Fixpoint mkdir_each (ds : list (list string)) : M unit :=
  match ds with
  | [] => ret tt
  | d :: ds' =>
      exists_ <- (fun st => (Ok (dir_exists st d), st)) ;;
      (if exists_ then ret tt
       else if may_create w d then add_dir d
       else raise (OSError "cannot create directory")) ;;
      mkdir_each ds'
  end.

(** [p.mkdir(parents=True, exist_ok=True)]: the path is walked as it is
    written; what is missing on the way is created from the top, what
    exists is left alone. *)
Definition mkdir_p (p : path) : M unit :=
  mkdir_each (on_the_way p).

(** [p.expanduser()]: a leading [~] or [~user] component of a relative
    path is replaced by that home directory; [RuntimeError] when it cannot
    be determined. *)
Definition expanduser (p : path) : M path :=
  if is_abs p then ret p
  else match parts p with
       | String "~" user :: rest =>
           match (if is_empty user then home w else user_home w user) with
           | Some h => ret (Path true (h ++ rest)%list)
           | None => raise (RuntimeError "Could not determine home directory.")
           end
       | _ => ret p
       end.

(** [p.resolve()]: the host follows the symbolic links and resolves [..];
    the library makes the result absolute, or raises (a loop of links, a
    NUL byte, a working directory that is gone).  Nothing is created. *)
Definition resolve (p : path) : M path :=
  match realpath w p with
  | inr q => ret (Path true q)
  | inl e => raise e
  end.

(** [shutil.which(cmd)] *)
Definition shutil_which (cmd : string) : M (option string) :=
  emit (EvWhich cmd) ;; ret (which w cmd).

(** [input(prompt)] on a standard input of decodable text; [None] is
    [EOFError] or [KeyboardInterrupt]. *)
Definition input (prompt : string) : M (option string) :=
  emit (EvInput prompt) ;; ret (stdin_line w).

(** [YoutubeDL(opts).extract_info(url, download=False)] *)
Definition ydl_extract_info (url : string) : M (option info_dict) :=
  emit (EvExtractInfo url) ;;
  match extract_info w url with
  | inr info => ret info
  | inl e => raise e
  end.

Fixpoint call_hooks (hooks : list (hook_dict -> M unit)) (d : hook_dict) : M unit :=
  match hooks with
  | [] => ret tt
  | h :: hs => h d ;; call_hooks hs d
  end.

Fixpoint run_events (hooks : list (hook_dict -> M unit)) (ds : list hook_dict) : M unit :=
  match ds with
  | [] => ret tt
  | d :: ds' => call_hooks hooks d ;; run_events hooks ds'
  end.

(** The library makes the folders its files go to; a directory that
    exists is left alone. *)
Definition library_mkdirs (ds : list (list string)) : M unit :=
  fun st =>
    (Ok tt, State (filter (fun d => negb (dir_exists st d)) ds ++ dirs st)%list
                  (trace st) (next_ref st) (cells st)).

(** [YoutubeDL(opts).download([url])] with [opts["progress_hooks"] = hooks]:
    the library makes its folders and writes its files, reports its
    progress dicts to every hook, in order, and then returns or raises. *)
Definition ydl_download_url (opts : ydl_opts) (hooks : list (hook_dict -> M unit))
    (url : string) : M unit :=
  emit (EvDownload opts url) ;;
  let '(ds, outcome) := ydl_download w opts url in
  library_mkdirs (ydl_creates w opts url) ;;
  run_events hooks ds ;;
  match outcome with
  | None => ret tt
  | Some e => raise e
  end.

End WithWorld.

Definition is_network (e : event) : bool :=
  match e with
  | EvExtractInfo _ | EvDownload _ _ => true
  | _ => false
  end.

Definition is_download (e : event) : bool :=
  match e with EvDownload _ _ => true | _ => false end.

(** A run that starts with the given directories and nothing else. *)
Definition init_state (ds : list (list string)) : state :=
  State ds [] 0 (fun _ => 0%Z).

End Effects.

(* ===================================================================== *)
(** ** downloader/config.py *)
(* ===================================================================== *)

Module Config.
Import Py Effects.

Definition OUTPUT_TEMPLATE : string := "%(playlist_title)s/%(title)s.%(ext)s".
Definition OUTPUT_TEMPLATE_MP3 : string := "%(playlist_title)s/%(title)s.mp3".
Definition SINGLE_VIDEO_TEMPLATE : string := "%(title)s.%(ext)s".
Definition SINGLE_VIDEO_TEMPLATE_MP3 : string := "%(title)s.mp3".
Definition OUTPUT_TEMPLATE_WAV : string := "%(playlist_title)s/%(title)s.wav".
Definition SINGLE_VIDEO_TEMPLATE_WAV : string := "%(title)s.wav".

Definition DOWNLOAD_DIR_NAME : string := "download".

Definition YOUTUBE_DOMAINS : list string :=
  ["youtube.com"; "youtu.be"; "www.youtube.com"].

Definition AUDIO_FORMAT : string := "wav".
Definition FFMPEG_EXTRACT_AUDIO : string := "wav".

Definition LOG_FORMAT : string := "%(asctime)s | %(levelname)-7s | %(message)s".
Definition LOG_DATE_FORMAT : string := "%Y-%m-%d %H:%M:%S".

(** [Path(__file__).resolve().parent.parent] *)
Definition get_app_root (w : world) : path := Path true (app_root w).

Definition get_default_output_dir (w : world) : path :=
  path_div (get_app_root w) DOWNLOAD_DIR_NAME.

End Config.

(* ===================================================================== *)
(** ** downloader/validators.py *)
(* ===================================================================== *)

Module Validators.
Import Py Effects Config.
Local Open Scope py_scope.

(** [re.compile(r"^https?://(www\.)?(youtube\.com|youtu\.be)/.+", re.IGNORECASE)];
    the anchor is implied by [match]. *)
Definition YOUTUBE_URL_PATTERN : regex :=
  RSeq (RLit "http")
  (RSeq (ROpt (RChar "s"))
  (RSeq (RLit "://")
  (RSeq (ROpt (RLit "www."))
  (RSeq (RAlt (RLit "youtube.com") (RLit "youtu.be"))
  (RSeq (RChar "/")
        (RPlus RDot)))))).

Definition pattern_match (s : string) : bool :=
  re_match true YOUTUBE_URL_PATTERN s.

Definition is_valid_youtube_url (url : pyobj) : bool :=
  if negb (truthy url) || negb (isinstance_str url) then false
  else match url with
       | ObjStr s =>
           let url := strip s in
           if is_empty url then false
           else if negb (pattern_match url) then false
           else match urlparse url with
                | Some parsed =>
                    existsb (String.eqb (scheme parsed)) ["http"; "https"]
                    && existsb (fun domain => str_in domain (netloc parsed))
                               YOUTUBE_DOMAINS
                | None => false          (* except Exception *)
                end
       | _ => false
       end.

Section WithWorld.
Variable w : world.

Definition normalize_output_path (path : pathlike) : M Py.path :=
  p <- expanduser w (Path_ path) ;;
  resolve w p.

Definition ensure_output_dir (path : Py.path) : M Py.path :=
  mkdir_p w path ;;
  ret path.

End WithWorld.

End Validators.

(* ===================================================================== *)
(** ** downloader/youtube_service.py *)
(* ===================================================================== *)

Module Service.
Import Py YtDlp Effects Config Validators.
Local Open Scope Z_scope.
Local Open Scope py_scope.

(** [(current, total, filename, status) -> None]. A callback is handed the
    four values and nothing else, so all it can do here is log: it is
    modelled by the records it logs. *)
Definition ProgressCallback : Type :=
  Z -> option Z -> string -> string -> list log_record.

Record YouTubeDownloadService := Build_Service {
  _output_dir : path;
  _download_video : bool;
  _progress_callback : option ProgressCallback
}.

(** [d.get(key, default)] on an optional field. *)
Definition get_or {A} (v : option A) (default : A) : A :=
  match v with Some a => a | None => default end.

Definition str_truthy (s : string) : bool := negb (is_empty s).

Section WithWorld.
Variable w : world.

Definition __init__ (output_dir : path) (download_video : bool)
    (progress_callback : option ProgressCallback) : M YouTubeDownloadService :=
  d <- ensure_output_dir w output_dir ;;
  ret (Build_Service d download_video progress_callback).

Definition ffmpeg_message : string :=
  "FFmpeg is not installed or not in PATH. " ++
  "Audio extraction to WAV requires FFmpeg. " ++
  "Install: macOS: brew install ffmpeg | Ubuntu: sudo apt install ffmpeg".

Definition _check_ffmpeg (self : YouTubeDownloadService) : M unit :=
  r <- shutil_which w "ffmpeg" ;;
  match r with
  | None => raise (RuntimeError ffmpeg_message)
  | Some _ => ret tt
  end.

Definition _build_opts (self : YouTubeDownloadService) (is_playlist : bool) : ydl_opts :=
  let outtmpl :=
    if _download_video self
    then (if is_playlist then OUTPUT_TEMPLATE else SINGLE_VIDEO_TEMPLATE)
    else (if is_playlist then OUTPUT_TEMPLATE_WAV else SINGLE_VIDEO_TEMPLATE_WAV) in
  let outtmpl := path_str (path_div (_output_dir self) outtmpl) in
  let opts :=
    YdlOpts (if negb (_download_video self) then "bestaudio/best"
             else "bestvideo+bestaudio/best")
            outtmpl true false false false None None in
  if negb (_download_video self)
  then YdlOpts (opt_format opts) (opt_outtmpl opts) (opt_ignoreerrors opts)
               (opt_no_warnings opts) (opt_quiet opts) (opt_extract_flat opts)
               (Some [PostProcessor "FFmpegExtractAudio" FFMPEG_EXTRACT_AUDIO])
               (Some [("extractaudio+ffmpeg",
                       ["-ar"; "44100"; "-ac"; "2"; "-acodec"; "pcm_s16le"])])
  else opts.

Definition _progress_hook (self : YouTubeDownloadService) (d : hook_dict)
    (current : Z) (total : option Z) : M unit :=
  let status := get_or (hd_status d) "downloading" in
  let filename :=
    match get_or (hd_filename d) (PStr "?") with
    | PStr EmptyString => PStr (get_or (hd_title d) "?")
    | f => f
    end in
  let filename :=
    match filename with
    | PPath p => name p
    | PStr s => if str_in "/" s then last (split_on "/" s) EmptyString else s
    end in
  match _progress_callback self with
  | Some callback =>
      emit (EvCallback current total filename status) ;;
      log_all (callback current total filename status)
  | None => ret tt
  end ;;
  if String.eqb status "finished" then
    logger_info "Finished: %s" [AStr filename]
  else if String.eqb status "downloading"
          && str_truthy (get_or (hd_percent_str d) EmptyString) then
    logger_debug "Progress: %s %s" [AStr filename; AStr (get_or (hd_percent_str d) "")]
  else ret tt.

Definition get_playlist_info (self : YouTubeDownloadService) (url : string)
    : M (option info_dict) :=
  try_except (ydl_extract_info w url)
    (fun e =>
       match e with
       | DownloadError _ =>
           logger_error "Failed to fetch playlist info: %s" [AExn e] ;;
           ret None
       | _ =>
           logger_exception "Unexpected error fetching info: %s" [AExn e] ;;
           ret None
       end).

(** The closure [progress_hook] of [download]; [success_count] and
    [current] are the cells it captures. *)
Definition progress_hook (self : YouTubeDownloadService) (total : Z)
    (success_count current : nat) (d : hook_dict) : M unit :=
  let status := get_or (hd_status d) "" in
  (if String.eqb status "finished" then
     s <- read_cell success_count ;;
     write_cell success_count (s + 1)
   else ret tt) ;;
  (if String.eqb status "downloading" then
     s <- read_cell success_count ;;
     write_cell current (s + 1)
   else if String.eqb status "finished" then
     s <- read_cell success_count ;;
     write_cell current s
   else ret tt) ;;
  c <- read_cell current ;;
  _progress_hook self d c (Some total).

(** [total] as [download] derives it from [info]. *)
Definition item_total (info : info_dict) : Z :=
  let entries := get_or (get_entries info) [] in
  match entries with
  | [] => 1
  | _ => Z.of_nat (length (filter entry_truthy entries))
  end.

Definition download (self : YouTubeDownloadService) (url : string) : M (Z * Z) :=
  (if negb (_download_video self) then _check_ffmpeg self else ret tt) ;;
  info <- get_playlist_info self url ;;
  match info with
  | Some info_d =>
      if negb (info_truthy info) then
        logger_error "Invalid or inaccessible URL: %s" [AStr url] ;;
        ret (0, 0)
      else
        let total := item_total info_d in
        logger_info "Total items to process: %s" [AInt total] ;;
        let is_playlist := total >? 1 in
        let opts := _build_opts self is_playlist in
        success_count <- new_cell 0 ;;
        current <- new_cell 0 ;;
        try_except
          (ydl_download_url w opts [progress_hook self total success_count current] url)
          (fun e =>
             match e with
             | DownloadError _ => logger_error "Download error: %s" [AExn e]
             | _ => logger_exception "Download failed: %s" [AExn e]
             end) ;;
        s <- read_cell success_count ;;
        let failures := total - s in
        ret (s, failures)
  | None =>
      logger_error "Invalid or inaccessible URL: %s" [AStr url] ;;
      ret (0, 0)
  end.

End WithWorld.

End Service.

(* ===================================================================== *)
(** ** main.py *)
(* ===================================================================== *)

Module Cli.
Import Py YtDlp Effects Config Validators Service.
Local Open Scope Z_scope.
Local Open Scope py_scope.

(** The namespace [parse_args] returns. *)
Record Namespace := Build_Namespace {
  url : option string;
  output : option string;
  video : bool;
  verbose : bool
}.

(** [x or ""] for an optional string. *)
Definition or_empty (x : option string) : string :=
  match x with Some s => s | None => EmptyString end.

Section WithWorld.
Variable w : world.

Definition setup_logging (verbose : bool) : M unit :=
  emit (EvSetLevel (if verbose then DEBUG else INFO)).

Definition get_user_input (prompt : string) (default : option string) : M string :=
  let prompt :=
    match default with
    | Some d => prompt ++ " [" ++ d ++ "]: "
    | None => prompt ++ ": "
    end in
  line <- input w prompt ;;
  match line with
  | Some l =>
      let value := strip l in
      ret (if str_truthy value then value else or_empty default)
  | None => ret (or_empty default)
  end.

Definition progress_callback : ProgressCallback :=
  fun current total filename status =>
    match total with
    | Some t =>
        if t >? 0 then
          [LogRecord INFO "[%d/%d] %s — %s"
                     [AInt current; AInt t; AStr status; AStr filename] false]
        else [LogRecord INFO "%s — %s" [AStr status; AStr filename] false]
    | None => [LogRecord INFO "%s — %s" [AStr status; AStr filename] false]
    end.

Definition run_download (url : string) (output_dir : path) (download_video : bool) : M Z :=
  service <- __init__ w output_dir download_video (Some progress_callback) ;;
  r <- try_except
         (p <- download w service url ;; ret (Some p))
         (fun e =>
            match e with
            | RuntimeError _ => logger_error "%s" [AExn e] ;; ret None
            | _ => raise e
            end) ;;
  match r with
  | None => ret 1
  | Some (success, failure) =>
      logger_info "Done. Success: %d, Failed: %d" [AInt success; AInt failure] ;;
      ret (if failure =? 0 then 0 else 1)
  end.

Definition main (args : Namespace) : M Z :=
  setup_logging (verbose args) ;;
  url <- match url args with
         | Some u => if str_truthy u then ret u
                     else get_user_input "YouTube playlist or video URL" None
         | None => get_user_input "YouTube playlist or video URL" None
         end ;;
  if negb (str_truthy url) then
    logger_error "No URL provided." [] ;;
    ret 1
  else if negb (is_valid_youtube_url (ObjStr url)) then
    logger_error "Invalid YouTube URL: %s" [AStr url] ;;
    ret 1
  else
    output_dir <- match output args with
                  | Some o => if str_truthy o then normalize_output_path w (PStr o)
                              else ret (get_default_output_dir w)
                  | None => ret (get_default_output_dir w)
                  end ;;
    created <- try_except
                 (ensure_output_dir w output_dir ;; ret true)
                 (fun e =>
                    match e with
                    | OSError _ =>
                        logger_error "Cannot create output folder %s: %s"
                                     [APath output_dir; AExn e] ;;
                        ret false
                    | _ => raise e
                    end) ;;
    if negb created then ret 1
    else
      logger_info "URL: %s" [AStr url] ;;
      logger_info "Output: %s | Mode: %s"
                  [APath output_dir; AStr (if video args then "video" else "audio (WAV)")] ;;
      run_download url output_dir (video args).

(** [sys.exit(main())]: an exception that escapes [main] ends the process
    with status 1. *)
Definition exit_code (args : Namespace) (st : state) : Z :=
  match main args st with
  | (Ok n, _) => n
  | (Raise _, _) => 1
  end.

End WithWorld.

End Cli.

(* ===================================================================== *)
(** ** Vocabulary of the statements *)
(* ===================================================================== *)

Module Spec.
Import Py YtDlp Effects Config Validators Service Cli.
Local Open Scope Z_scope.

(** A progress dict that reports a finished file. *)
Definition is_finished (d : hook_dict) : bool :=
  match hd_status d with
  | Some s => String.eqb s "finished"
  | None => false
  end.

(** Number of "finished" events among those the hook observed. *)
Definition count_finished (ds : list hook_dict) : Z :=
  Z.of_nat (length (filter is_finished ds)).

(** What a progress hook may leave in the trace when it is handed the
    total [t]: log records, and calls of the callback with that total. *)
Definition hook_event (t : Z) (e : event) : bool :=
  match e with
  | EvLog _ => true
  | EvCallback _ (Some t') _ _ => t' =? t
  | _ => false
  end.

Definition is_which (e : event) : bool :=
  match e with EvWhich _ => true | _ => false end.

(** The same host with another answer of the executable search. *)
Definition with_which (w : world) (f : string -> option string) : world :=
  World f (home w) (user_home w) (cwd w) (app_root w)
        (may_create w) (extract_info w) (ydl_download w) (stdin_line w)
        (realpath w) (ydl_creates w).

Definition non_null (e : entry) : bool :=
  match e with Some _ => true | None => false end.

(** The item total in the words of the specification: an absent, null or
    empty entry list counts as one item; otherwise the entries that are
    not null are counted. *)
Definition spec_item_total (info : info_dict) : Z :=
  match info_entries info with
  | None => 1
  | Some None => 1
  | Some (Some []) => 1
  | Some (Some es) => Z.of_nat (length (filter non_null es))
  end.

(** The prerequisite of [download] holds: video mode, or ffmpeg is found. *)
Definition prerequisite_ok (w : world) (self : YouTubeDownloadService) : Prop :=
  _download_video self = true \/ exists p, which w "ffmpeg" = Some p.

(** The output template [download] selects from the mode and the total. *)
Definition selected_template (download_video is_playlist : bool) : string :=
  match download_video, is_playlist with
  | true, true => OUTPUT_TEMPLATE
  | true, false => SINGLE_VIDEO_TEMPLATE
  | false, true => OUTPUT_TEMPLATE_WAV
  | false, false => SINGLE_VIDEO_TEMPLATE_WAV
  end.

(** The home directory a path's leading [~] or [~user] stands for can be
    determined (or the path has no such component). *)
Definition home_known (w : world) (p : path) : bool :=
  if is_abs p then true
  else match parts p with
       | String "~" user :: _ =>
           match (if is_empty user then home w else user_home w user) with
           | Some _ => true
           | None => false
           end
       | _ => true
       end.

(** No control character and no space. *)
Definition printable (s : string) : bool :=
  forallb_str (fun c => negb (is_c0_or_space c)) s.

(** ASCII text. *)
Definition is_ascii (s : string) : bool :=
  forallb_str (fun c => (code c <? 128)%N) s.

(** The lower-case spellings of the scheme and host the pattern allows. *)
Definition lower_case_prefixes : list string :=
  ["http://youtube.com/"; "https://youtube.com/";
   "http://www.youtube.com/"; "https://www.youtube.com/";
   "http://youtu.be/"; "https://youtu.be/";
   "http://www.youtu.be/"; "https://www.youtu.be/"].

Definition no_dotdot (ps : list string) : bool :=
  forallb (fun p => negb (String.eqb p "..")) ps.

Definition ends_with (suffix s : string) : Prop :=
  exists pre, s = (pre ++ suffix)%string.

(** The record logged when the library's download raised [e]. *)
Definition download_error_record (e : exn) : log_record :=
  match e with
  | DownloadError _ => LogRecord ERROR "Download error: %s" [AExn e] false
  | _ => LogRecord ERROR "Download failed: %s" [AExn e] true
  end.

(** The record logged when the metadata query raised [e]. *)
Definition fetch_error_record (e : exn) : log_record :=
  match e with
  | DownloadError _ => LogRecord ERROR "Failed to fetch playlist info: %s" [AExn e] false
  | _ => LogRecord ERROR "Unexpected error fetching info: %s" [AExn e] true
  end.

(** What [download] does before the metadata query. *)
Definition prerequisite_events (self : YouTubeDownloadService) : list event :=
  if _download_video self then [] else [EvWhich "ffmpeg"].

(** What the metadata query returns and leaves in the trace. *)
Definition fetch_result (w : world) (url : string) : option info_dict :=
  match extract_info w url with
  | inr info => info
  | inl _ => None
  end.

Definition fetch_events (w : world) (url : string) : list event :=
  match extract_info w url with
  | inr _ => [EvExtractInfo url]
  | inl e => [EvLog (fetch_error_record e); EvExtractInfo url]
  end.

Definition outcome_events (outcome : option exn) : list event :=
  match outcome with
  | None => []
  | Some e => [EvLog (download_error_record e)]
  end.

Definition invalid_url_record (url : string) : log_record :=
  LogRecord ERROR "Invalid or inaccessible URL: %s" [AStr url] false.

Definition total_record (n : Z) : log_record :=
  LogRecord INFO "Total items to process: %s" [AInt n] false.

(** The folders the library's download adds to those of [st]. *)
Definition library_folders (w : world) (opts : ydl_opts) (url : string)
    (st : state) : list (list string) :=
  filter (fun d => negb (dir_exists st d)) (ydl_creates w opts url).

End Spec.

(* ===================================================================== *)
(** ** Concrete hosts and requests *)
(* ===================================================================== *)

Module Examples.
Import Py YtDlp Effects Config Validators Service Cli Spec.
Local Open Scope Z_scope.

Definition item (i : string) : entry := Some (EntryInfo i [("title", i)]).

Definition progress (status file : string) : hook_dict :=
  HookDict (Some status) (Some (PStr file)) None (Some "42.0%").

(** The folder of a file the library reports. *)
Definition folder_of (d : hook_dict) : list (list string) :=
  match hd_filename d with
  | Some f => [parts (parent (Path_ f))]
  | None => []
  end.

Definition folders (ds : list hook_dict) : list (list string) :=
  nodup (list_eq_dec string_dec) (flat_map folder_of ds).

(** A host where ffmpeg is installed, directories can be created and no
    path holds a symbolic link, and where yt-dlp answers the metadata
    query with [info] and runs a download as [run], making the folders of
    the files it reports. *)
Definition host (info : exn + option info_dict)
    (run : list hook_dict * option exn) : world :=
  World (fun cmd => if String.eqb cmd "ffmpeg" then Some "/usr/bin/ffmpeg" else None)
        (Some ["home"; "user"]) (fun _ => None) ["work"] ["opt"; "app"]
        (fun _ => true) (fun _ => info) (fun _ _ => run) None
        (fun p => inr (lexical ["work"] p)) (fun _ _ => folders (fst run)).

(** The same host without ffmpeg on the search path. *)
Definition without_ffmpeg (w : world) : world := with_which w (fun _ => None).

Definition start : state := init_state [["music"]].

Definition music : path := Path true ["music"].

Definition audio_service : YouTubeDownloadService :=
  Build_Service music false (Some progress_callback).

Definition video_service : YouTubeDownloadService :=
  Build_Service music true (Some progress_callback).

Definition playlist_url : string := "https://www.youtube.com/playlist?list=PL123".
Definition video_url : string := "https://www.youtube.com/watch?v=abc123".

(** A playlist of five items. *)
Definition five_items : info_dict :=
  InfoDict (Some (Some [item "a"; item "b"; item "c"; item "d"; item "e"]))
           [("title", "Mix")].

(** Three files finish, then the library raises. *)
Definition three_then_error : list hook_dict * option exn :=
  ([progress "downloading" "/music/Mix/a.webm"; progress "finished" "/music/Mix/a.webm";
    progress "downloading" "/music/Mix/b.webm"; progress "finished" "/music/Mix/b.webm";
    progress "downloading" "/music/Mix/c.webm"; progress "finished" "/music/Mix/c.webm";
    progress "downloading" "/music/Mix/d.webm"],
   Some (DownloadError "HTTP Error 403: Forbidden")).

Definition host_three_of_five : world := host (inr (Some five_items)) three_then_error.

(** A playlist listing with two unavailable items. *)
Definition partial_listing : info_dict :=
  InfoDict (Some (Some [None; item "a"; None; item "b"])) [("title", "Mix")].

Definition two_finish : list hook_dict * option exn :=
  ([progress "finished" "/music/Mix/a.webm"; progress "finished" "/music/Mix/b.webm"], None).

Definition host_partial : world := host (inr (Some partial_listing)) two_finish.

(** A single video: no [entries] key. In video mode its video and audio
    streams are two files, each reported as finished. *)
Definition single_video : info_dict := InfoDict None [("id", "abc123"); ("title", "Song")].

Definition two_streams : list hook_dict * option exn :=
  ([progress "finished" "/music/Song.f137.mp4"; progress "finished" "/music/Song.f140.m4a"],
   None).

Definition host_two_streams : world := host (inr (Some single_video)) two_streams.

(** A playlist URL of which one item only is available. *)
Definition one_available : info_dict :=
  InfoDict (Some (Some [None; item "a"])) [("title", "Mix")].

Definition one_finish : list hook_dict * option exn :=
  ([progress "finished" "/music/a.webm"], None).

Definition host_one_available : world := host (inr (Some one_available)) one_finish.

(** The metadata query fails: the video is gone. *)
Definition host_unavailable : world :=
  host (inl (DownloadError "Video unavailable")) ([], None).

Definition gone_url : string := "https://www.youtube.com/watch?v=gone".

Definition mixed_case_url : string := "https://YouTube.com/watch?v=abc123".

(** The command line [main.py URL -o /music]. *)
Definition cli_args (u : string) : Namespace :=
  Build_Namespace (Some u) (Some "/music") false false.

End Examples.

(* ===================================================================== *)
(** ** Further vocabulary: states, directories, the URL of a run *)
(* ===================================================================== *)

Module SpecExtra.
Import Py YtDlp Effects Config Validators Service Cli Spec.
Local Open Scope Z_scope.

(** The state [st] with the events [new] (newest first) added. *)
Definition extend (st : state) (new : list event) : state :=
  State (dirs st) (new ++ trace st)%list (next_ref st) (cells st).

(** The directory a path names and those it leads through, the root left
    out. *)
Definition ancestors (w : world) (p : path) : list (list string) :=
  on_the_way w p.

Definition is_mkdir (e : event) : bool :=
  match e with EvMkdir _ => true | _ => false end.

Definition is_callback (e : event) : bool :=
  match e with EvCallback _ _ _ _ => true | _ => false end.

Definition is_extract (e : event) : bool :=
  match e with EvExtractInfo _ => true | _ => false end.

Definition is_input (e : event) : bool :=
  match e with EvInput _ => true | _ => false end.

(** The service [run_download] constructs. *)
Definition cli_service (d : path) (download_video : bool) : YouTubeDownloadService :=
  Build_Service d download_video (Some progress_callback).

Definition done_record (success failure : Z) : log_record :=
  LogRecord INFO "Done. Success: %d, Failed: %d" [AInt success; AInt failure] false.

(** The prompt as [get_user_input] shows it. *)
Definition shown_prompt (prompt : string) (default : option string) : string :=
  match default with
  | Some d => prompt ++ " [" ++ d ++ "]: "
  | None => prompt ++ ": "
  end.

(** What [main] asks at the prompt. *)
Definition url_prompt : string := "YouTube playlist or video URL: ".

(** What the user types at the prompt, trimmed; nothing on EOF. *)
Definition typed_url (w : world) : string :=
  match stdin_line w with
  | Some l => strip l
  | None => EmptyString
  end.

(** The command line carries a URL. *)
Definition has_cli_url (args : Namespace) : bool :=
  match url args with
  | Some u => str_truthy u
  | None => false
  end.

(** The URL a run works with: the one on the command line, or the one
    typed at the prompt when the command line has none. *)
Definition run_url (w : world) (args : Namespace) : string :=
  match url args with
  | Some u => if str_truthy u then u else typed_url w
  | None => typed_url w
  end.

(** The command line carries an output folder. *)
Definition has_cli_output (args : Namespace) : bool :=
  match output args with
  | Some o => str_truthy o
  | None => false
  end.

(** The path given with [-o], as [Path] reads it. *)
Definition cli_output_path (args : Namespace) : path :=
  match output args with
  | Some o => path_of_string o
  | None => path_of_string EmptyString
  end.

(** The status of a progress dict as the closure reads it. *)
Definition status_of (d : hook_dict) : string :=
  match hd_status d with Some s => s | None => EmptyString end.

(** The status of a progress dict as [_progress_hook] reports it. *)
Definition reported_status (d : hook_dict) : string :=
  match hd_status d with Some s => s | None => "downloading" end.

(** The dict reports a file being downloaded or finished. *)
Definition counts_as_file (d : hook_dict) : bool :=
  String.eqb (status_of d) "downloading" || String.eqb (status_of d) "finished".

(** What [main] leaves in the trace before it looks at the URL: the
    logging set-up, then the prompt when the command line has no URL. *)
Definition url_events (args : Namespace) : list event :=
  if has_cli_url args then [] else [EvInput url_prompt].

Definition start_events (args : Namespace) : list event :=
  (url_events args ++ [EvSetLevel (if verbose args then DEBUG else INFO)])%list.

Definition no_url_record : log_record :=
  LogRecord ERROR "No URL provided." [] false.

Definition invalid_youtube_url_record (u : string) : log_record :=
  LogRecord ERROR "Invalid YouTube URL: %s" [AStr u] false.

Definition cannot_create_record (d : path) (e : exn) : log_record :=
  LogRecord ERROR "Cannot create output folder %s: %s" [APath d; AExn e] false.

(** The two records [main] logs before it runs the download. *)
Definition run_logs (u : string) (d : path) (args : Namespace) : list event :=
  [EvLog (LogRecord INFO "Output: %s | Mode: %s"
            [APath d; AStr (if video args then "video" else "audio (WAV)")] false);
   EvLog (LogRecord INFO "URL: %s" [AStr u] false)].

(** The output directory of a run is [d]: the normalised [-o] argument
    when there is one, the default download folder otherwise. *)
Definition main_output_dir (w : world) (args : Namespace) (st : state)
    (d : path) : Prop :=
  if has_cli_output args
  then fst (normalize_output_path w (PStr (or_empty (output args))) st) = Ok d
  else d = get_default_output_dir w.

(** A directory on the way to [p] is missing and may not be created. *)
Definition blocked (w : world) (st : state) (p : path) : Prop :=
  exists d, In d (ancestors w p) /\ may_create w d = false
            /\ dir_exists st d = false.

End SpecExtra.

(* ===================================================================== *)
(** ** Further hosts and requests *)
(* ===================================================================== *)

Module MoreExamples.
Import Py YtDlp Effects Config Validators Service Cli Spec SpecExtra Examples.
Local Open Scope Z_scope.

(** The same host where nothing may be created under [/srv]. *)
Definition read_only_srv (w : world) : world :=
  World (which w) (home w) (user_home w) (cwd w) (app_root w)
        (fun d => match d with
                  | "srv"%string :: _ => false
                  | _ => true
                  end)
        (extract_info w) (ydl_download w) (stdin_line w)
        (realpath w) (ydl_creates w).

(** The same host where the user types [line] at the prompt. *)
Definition typing (w : world) (line : option string) : world :=
  World (which w) (home w) (user_home w) (cwd w) (app_root w)
        (may_create w) (extract_info w) (ydl_download w) line
        (realpath w) (ydl_creates w).

(** The same host where [/home/user/x] is a symbolic link to [/mnt/disk/x]
    and [/home/user/loop] a link to itself. *)
Definition host_linked : world :=
  World (which host_partial) (home host_partial) (user_home host_partial)
        (cwd host_partial) (app_root host_partial) (may_create host_partial)
        (extract_info host_partial) (ydl_download host_partial)
        (stdin_line host_partial)
        (fun p =>
           match lexical (cwd host_partial) p with
           | "home" :: "user" :: "x" :: rest => inr ("mnt" :: "disk" :: "x" :: rest)
           | "home" :: "user" :: "loop" :: _ =>
               inl (RuntimeError "Symlink loop from '/home/user/loop'")
           | q => inr q
           end%string)
        (ydl_creates host_partial).

Definition new_folder : path := Path true ["music"; "rock"; "live"].

Definition srv_folder : path := Path true ["srv"; "media"].

(** [/music/tmp/../rock], as it is written. *)
Definition by_way_of_tmp : path := Path true ["music"; "tmp"; ".."; "rock"].

(** [main.py] with no argument at all. *)
Definition no_args : Namespace := Build_Namespace None None false false.

(** [main.py URL -o DIR]. *)
Definition args_to (u dir : string) : Namespace :=
  Build_Namespace (Some u) (Some dir) false false.

End MoreExamples.


(* ===================================================================== *)
(** ** Running the monad *)
(* ===================================================================== *)

Import Py YtDlp Effects Config Validators Service Cli Spec.
Local Open Scope Z_scope.
Local Open Scope list_scope.

Ltac run :=
  unfold bind, ret, raise, try_except, emit, log, logger_info, logger_error,
         logger_debug, logger_exception, read_cell, write_cell, new_cell;
  simpl.

Lemma log_all_run (rs : list log_record) (st : state) :
  log_all rs st =
  (Ok tt, State (dirs st) (rev (map EvLog rs) ++ trace st) (next_ref st) (cells st)).
Proof.
  revert st. induction rs as [|r rs IH]; intros st.
  - destruct st; reflexivity.
  - simpl. unfold bind, emit. rewrite IH. simpl.
    rewrite <- app_assoc. reflexivity.
Qed.

Lemma forallb_hook_event_logs (n : Z) (rs : list log_record) :
  forallb (hook_event n) (rev (map EvLog rs)) = true.
Proof.
  induction rs as [|r rs IH]; simpl; [reflexivity|].
  rewrite forallb_app, IH. reflexivity.
Qed.

Section Hooks.
Variable w : world.
Variable self : YouTubeDownloadService.

(** [_progress_hook] returns normally; it calls the callback with the total
    it was given, and logs. *)
Lemma _progress_hook_run (d : hook_dict) (c n : Z) (st : state) :
  exists new,
    _progress_hook self d c (Some n) st =
      (Ok tt, State (dirs st) (new ++ trace st) (next_ref st) (cells st))
    /\ forallb (hook_event n) new = true.
Proof.
  unfold _progress_hook.
  set (status := get_or (hd_status d) "downloading").
  set (filename := match match get_or (hd_filename d) (PStr "?") with
                         | PStr EmptyString => PStr (get_or (hd_title d) "?")
                         | f => f end with
                   | PPath p => name p
                   | PStr s => if str_in "/" s then last (split_on "/" s) EmptyString else s
                   end).
  set (cb := match _progress_callback self with
             | Some callback =>
                 bind (emit (EvCallback c (Some n) filename status))
                      (fun _ => log_all (callback c (Some n) filename status))
             | None => ret tt end).
  assert (Hcb : exists called,
            cb st = (Ok tt, State (dirs st) (called ++ trace st) (next_ref st) (cells st))
            /\ forallb (hook_event n) called = true).
  { subst cb. destruct (_progress_callback self) as [f|].
    - exists (rev (map EvLog (f c (Some n) filename status))
              ++ [EvCallback c (Some n) filename status]).
      split.
      + unfold bind, emit. rewrite log_all_run. simpl.
        rewrite <- app_assoc. reflexivity.
      + rewrite forallb_app, forallb_hook_event_logs. simpl.
        rewrite Z.eqb_refl. reflexivity.
    - exists []. split; [destruct st; reflexivity | reflexivity]. }
  destruct Hcb as (called & Hcb & Hall).
  unfold bind at 1. rewrite Hcb.
  destruct (String.eqb status "finished").
  - eexists (_ :: _). split.
    + run. reflexivity.
    + simpl. exact Hall.
  - destruct (String.eqb status "downloading" && _).
    + eexists (_ :: _). split.
      * run. reflexivity.
      * simpl. exact Hall.
    + eexists. split; [reflexivity | exact Hall].
Qed.

Lemma is_finished_status (d : hook_dict) :
  String.eqb (get_or (hd_status d) "") "finished" = is_finished d.
Proof. unfold is_finished, get_or. destruct (hd_status d); reflexivity. Qed.

(** One call of the closure: it returns normally, reports with the total
    it captured, and adds one to the success cell exactly on a finished
    event. *)
Lemma progress_hook_run (total : Z) (sc cur : nat) (d : hook_dict) (st : state) :
  sc <> cur ->
  exists new cells',
    progress_hook self total sc cur d st =
      (Ok tt, State (dirs st) (new ++ trace st) (next_ref st) cells')
    /\ forallb (hook_event total) new = true
    /\ cells' sc = cells st sc + (if is_finished d then 1 else 0).
Proof.
  intros Hne.
  assert (Hsc : Nat.eqb sc cur = false) by (apply Nat.eqb_neq; exact Hne).
  unfold progress_hook. rewrite is_finished_status.
  destruct (is_finished d) eqn:Hf.
  - destruct (String.eqb (get_or (hd_status d) "") "downloading") eqn:Hd.
    + run.
      match goal with |- context [_progress_hook self d ?c (Some ?t) ?s] =>
        destruct (_progress_hook_run d c t s) as (new & E & L); rewrite E end.
      simpl. exists new. eexists. split; [reflexivity|]. split; [exact L|].
      simpl. rewrite Hsc, Nat.eqb_refl. reflexivity.
    + run.
      match goal with |- context [_progress_hook self d ?c (Some ?t) ?s] =>
        destruct (_progress_hook_run d c t s) as (new & E & L); rewrite E end.
      simpl. exists new. eexists. split; [reflexivity|]. split; [exact L|].
      simpl. rewrite Hsc, Nat.eqb_refl. reflexivity.
  - destruct (String.eqb (get_or (hd_status d) "") "downloading") eqn:Hd.
    + run.
      match goal with |- context [_progress_hook self d ?c (Some ?t) ?s] =>
        destruct (_progress_hook_run d c t s) as (new & E & L); rewrite E end.
      simpl. exists new. eexists. split; [reflexivity|]. split; [exact L|].
      simpl. rewrite Hsc. lia.
    + run.
      match goal with |- context [_progress_hook self d ?c (Some ?t) ?s] =>
        destruct (_progress_hook_run d c t s) as (new & E & L); rewrite E end.
      simpl. exists new. eexists. split; [reflexivity|]. split; [exact L|].
      simpl. lia.
Qed.

Lemma count_finished_cons (d : hook_dict) (ds : list hook_dict) :
  count_finished (d :: ds) = (if is_finished d then 1 else 0) + count_finished ds.
Proof.
  unfold count_finished. simpl. destruct (is_finished d); simpl length; lia.
Qed.

(** The whole run of the library's events through the closure. *)
Lemma run_events_hook (total : Z) (sc cur : nat) (ds : list hook_dict) (st : state) :
  sc <> cur ->
  exists new cells',
    run_events [progress_hook self total sc cur] ds st =
      (Ok tt, State (dirs st) (new ++ trace st) (next_ref st) cells')
    /\ forallb (hook_event total) new = true
    /\ cells' sc = cells st sc + count_finished ds.
Proof.
  intros Hne. revert st.
  induction ds as [|d ds IH]; intros st.
  - exists [], (cells st). split; [destruct st; reflexivity|].
    split; [reflexivity|]. unfold count_finished; simpl; lia.
  - destruct (progress_hook_run total d st Hne) as (n1 & c1 & E1 & L1 & C1).
    simpl. unfold bind at 1. unfold bind at 1. rewrite E1. unfold ret at 1.
    destruct (IH (State (dirs st) (n1 ++ trace st) (next_ref st) c1))
      as (n2 & c2 & E2 & L2 & C2).
    simpl in E2, C2. rewrite E2. simpl. exists (n2 ++ n1), c2.
    split; [rewrite app_assoc; reflexivity|].
    split; [rewrite forallb_app, L1, L2; reflexivity|].
    rewrite C2, C1, count_finished_cons. lia.
Qed.

End Hooks.

Section Download.
Variable w : world.
Variable self : YouTubeDownloadService.
Variable url : string.

Lemma prerequisite_run (st : state) :
  prerequisite_ok w self ->
  (if negb (_download_video self) then _check_ffmpeg w self else ret tt) st =
  (Ok tt, State (dirs st) (prerequisite_events self ++ trace st)
                (next_ref st) (cells st)).
Proof.
  unfold prerequisite_ok, prerequisite_events.
  intros [Hv | [p Hp]].
  - rewrite Hv. destruct st; reflexivity.
  - destruct (_download_video self); [destruct st; reflexivity|].
    simpl. unfold _check_ffmpeg, shutil_which. run. rewrite Hp. reflexivity.
Qed.

Lemma get_playlist_info_run (st : state) :
  get_playlist_info w self url st =
  (Ok (fetch_result w url),
   State (dirs st) (fetch_events w url ++ trace st) (next_ref st) (cells st)).
Proof.
  unfold get_playlist_info, ydl_extract_info, fetch_result, fetch_events.
  run. destruct (extract_info w url) as [e | info]; [|reflexivity].
  destruct e; reflexivity.
Qed.

(** A failed metadata query: nothing is downloaded. *)
Lemma download_fetch_failed (st : state) :
  prerequisite_ok w self ->
  info_truthy (fetch_result w url) = false ->
  download w self url st =
  (Ok (0, 0),
   State (dirs st)
         (EvLog (invalid_url_record url)
            :: fetch_events w url ++ prerequisite_events self ++ trace st)
         (next_ref st) (cells st)).
Proof.
  intros Hp Hf. unfold download.
  unfold bind at 1. rewrite (prerequisite_run st Hp).
  unfold bind at 1. rewrite get_playlist_info_run. simpl.
  destruct (fetch_result w url) as [d|] eqn:E.
  - rewrite Hf. reflexivity.
  - reflexivity.
Qed.

(** A successful metadata query: the library is run once, and the pair
    returned counts the finished events against the derived total. *)
Lemma download_run (st : state) (info : info_dict) :
  prerequisite_ok w self ->
  fetch_result w url = Some info ->
  info_truthy (Some info) = true ->
  let n := item_total info in
  let opts := _build_opts self (n >? 1) in
  let ds := fst (ydl_download w opts url) in
  let outcome := snd (ydl_download w opts url) in
  exists logs cells',
    download w self url st =
    (Ok (count_finished ds, n - count_finished ds),
     State (library_folders w opts url st ++ dirs st)
           (outcome_events outcome ++ logs
              ++ [EvDownload opts url; EvLog (total_record n)]
              ++ fetch_events w url ++ prerequisite_events self ++ trace st)
           (S (S (next_ref st))) cells')
    /\ forallb (hook_event n) logs = true.
Proof.
  intros Hp Hi Ht n opts ds outcome. unfold download.
  unfold bind at 1. rewrite (prerequisite_run st Hp).
  unfold bind at 1. rewrite get_playlist_info_run. simpl.
  rewrite Hi. rewrite Ht. simpl.
  fold n. fold opts.
  unfold ydl_download_url.
  subst ds outcome.
  destruct (ydl_download w opts url) as [ds outcome] eqn:Ey. simpl.
  unfold library_mkdirs, library_folders. run.
  match goal with |- context [run_events ?h ds ?s] =>
    destruct (@run_events_hook self n (next_ref st) (S (next_ref st)) ds s)
      as (logs & c' & E & L & C) end.
  { apply n_Sn. }
  simpl in E, C. rewrite E.
  exists logs.
  destruct outcome as [e|]; simpl.
  - destruct e; eexists; (split; [|exact L]); simpl; rewrite C;
      rewrite Nat.eqb_refl;
      replace (Nat.eqb (next_ref st) (S (next_ref st))) with false
        by (symmetry; apply Nat.eqb_neq, n_Sn);
      simpl; reflexivity.
  - eexists; (split; [|exact L]); simpl; rewrite C;
      rewrite Nat.eqb_refl;
      replace (Nat.eqb (next_ref st) (S (next_ref st))) with false
        by (symmetry; apply Nat.eqb_neq, n_Sn);
      simpl; reflexivity.
Qed.

End Download.

(* ===================================================================== *)
(** ** The item total and the returned pair *)
(* ===================================================================== *)

Lemma entry_truthy_non_null (e : entry) : entry_truthy e = non_null e.
Proof. destruct e; reflexivity. Qed.

Lemma filter_entry_truthy (es : list entry) :
  filter entry_truthy es = filter non_null es.
Proof.
  induction es as [|e es IH]; simpl; [reflexivity|].
  rewrite entry_truthy_non_null, IH. reflexivity.
Qed.

Lemma item_total_spec (info : info_dict) : item_total info = spec_item_total info.
Proof.
  unfold item_total, spec_item_total, get_entries, get_or.
  destruct (info_entries info) as [[es|]|]; [|reflexivity|reflexivity].
  destruct es as [|e es]; [reflexivity|].
  rewrite filter_entry_truthy. reflexivity.
Qed.

Lemma fetch_result_returned (w : world) (url : string) (info : info_dict) :
  extract_info w url = inr (Some info) -> fetch_result w url = Some info.
Proof. intros H. unfold fetch_result. now rewrite H. Qed.

Lemma in_trace_download_run (e : event) (pre logs rest : list event)
    (opts : ydl_opts) (url : string) (r : log_record) :
  e = EvDownload opts url \/ e = EvLog r ->
  In e (pre ++ logs ++ EvDownload opts url :: EvLog r :: rest).
Proof.
  intros H. apply in_or_app; right; apply in_or_app; right; simpl.
  destruct H as [-> | ->]; auto.
Qed.

Lemma hook_event_callback (n : Z) (l : list event) (c : Z) (t : option Z)
    (f s : string) :
  forallb (hook_event n) l = true -> In (EvCallback c t f s) l -> t = Some n.
Proof.
  intros H Hin. rewrite forallb_forall in H. specialize (H _ Hin).
  simpl in H. destruct t as [t|]; [|discriminate].
  apply Z.eqb_eq in H. now subst.
Qed.

(** Outside the hook's events, [download] never calls the callback. *)
Lemma callback_only_from_hooks (w : world) (self : YouTubeDownloadService)
    (url : string) (opts : ydl_opts) (r : log_record) (o : option exn)
    (c : Z) (t : option Z) (f s : string) :
  ~ In (EvCallback c t f s)
       (outcome_events o ++ [EvDownload opts url; EvLog r]
          ++ fetch_events w url ++ prerequisite_events self).
Proof.
  intros H. repeat (apply in_app_or in H; destruct H as [H | H]).
  - destruct o; simpl in H; [destruct H as [H | []]; discriminate H | contradiction].
  - simpl in H. destruct H as [H | [H | []]]; discriminate H.
  - unfold fetch_events in H. destruct (extract_info w url); simpl in H;
      repeat (destruct H as [H | H]; try discriminate H); contradiction.
  - unfold prerequisite_events in H. destruct (_download_video self); simpl in H;
      repeat (destruct H as [H | H]; try discriminate H); contradiction.
Qed.

(** C2. Whatever the metadata result, the item total that [download]
    derives is: 1 when the entry list is absent, null or empty, and
    otherwise the number of entries that are not null.  That total is the
    one logged, the one the options are built from, the one every call of
    the progress callback carries, and the one the successes are subtracted
    from.  With the entries [None, item, None, item] it is 2. *)
Theorem download_item_total (w : world) (self : YouTubeDownloadService)
    (url : string) (st : state) (info : info_dict) :
  prerequisite_ok w self ->
  extract_info w url = inr (Some info) ->
  info_truthy (Some info) = true ->
  let n := spec_item_total info in
  item_total info = n
  /\ exists new,
       trace (snd (download w self url st)) = new ++ trace st
       /\ In (EvLog (total_record n)) new
       /\ In (EvDownload (_build_opts self (n >? 1)) url) new
       /\ (forall c t f s, In (EvCallback c t f s) new -> t = Some n)
       /\ exists s, fst (download w self url st) = Ok (s, n - s).
Proof.
  intros Hp Hi Ht n.
  apply fetch_result_returned in Hi.
  destruct (@download_run w self url st info Hp Hi Ht) as (logs & c' & E & L).
  subst n. rewrite <- item_total_spec. split; [reflexivity|].
  set (n := item_total info) in *.
  set (opts := _build_opts self (n >? 1)) in *.
  set (o := snd (ydl_download w opts url)) in *.
  exists (outcome_events o ++ logs
          ++ [EvDownload opts url; EvLog (total_record n)]
          ++ fetch_events w url ++ prerequisite_events self).
  rewrite E. simpl.
  split; [repeat (rewrite <- app_assoc; simpl); reflexivity|].
  split; [apply in_trace_download_run; right; reflexivity|].
  split; [apply in_trace_download_run; left; reflexivity|].
  split; [|eexists; reflexivity].
  intros c t f s H.
  apply in_app_or in H. destruct H as [H | H].
  - exfalso. apply (@callback_only_from_hooks w self url opts (total_record n) o c t f s).
    apply in_or_app. left. exact H.
  - apply in_app_or in H. destruct H as [H | H].
    + exact (@hook_event_callback n logs c t f s L H).
    + exfalso.
      apply (@callback_only_from_hooks w self url opts (total_record n) o c t f s).
      apply in_or_app. right. exact H.
Qed.

Lemma download_item_total_witness :
  item_total Examples.partial_listing = 2
  /\ exists new,
       trace (snd (download Examples.host_partial Examples.audio_service
                            Examples.playlist_url Examples.start))
         = new ++ trace Examples.start
       /\ In (EvLog (total_record 2)) new
       /\ In (EvDownload (_build_opts Examples.audio_service true)
                         Examples.playlist_url) new
       /\ (forall c t f s, In (EvCallback c t f s) new -> t = Some 2)
       /\ exists s, fst (download Examples.host_partial Examples.audio_service
                                  Examples.playlist_url Examples.start)
                    = Ok (s, 2 - s).
Proof.
  apply (@download_item_total Examples.host_partial Examples.audio_service
           Examples.playlist_url Examples.start Examples.partial_listing).
  - right. exists "/usr/bin/ffmpeg"%string. reflexivity.
  - reflexivity.
  - reflexivity.
Defined.

(** An absent, null or empty entry list is one item. *)
Lemma item_total_no_entries (fields : list (string * string)) :
  item_total (InfoDict None fields) = 1
  /\ item_total (InfoDict (Some None) fields) = 1
  /\ item_total (InfoDict (Some (Some [])) fields) = 1.
Proof. repeat split. Qed.

(** A listing whose entries are all null is not empty: its total is the
    number of entries that are not null, which is 0. *)
Lemma item_total_all_null (fields : list (string * string)) :
  item_total (InfoDict (Some (Some [None; None])) fields) = 0.
Proof. reflexivity. Qed.

(** Null entries are not counted. *)
Lemma item_total_partial_listing (a b : entry_info) (fields : list (string * string)) :
  item_total (InfoDict (Some (Some [None; Some a; None; Some b])) fields) = 2.
Proof. reflexivity. Qed.

(** C3. When the prerequisite holds and the metadata query succeeded,
    [download] returns, and returns the pair (s, n - s): n the derived item
    total, s the number of "finished" events the progress hook observed.
    This is so too when the library raises in the middle of the batch: the
    error is logged, the call still returns, and the files finished before
    the error are counted. *)
Theorem download_returns_finished_count (w : world) (self : YouTubeDownloadService)
    (url : string) (st : state) (info : info_dict) :
  prerequisite_ok w self ->
  extract_info w url = inr (Some info) ->
  info_truthy (Some info) = true ->
  let n := item_total info in
  let run := ydl_download w (_build_opts self (n >? 1)) url in
  let s := count_finished (fst run) in
  exists st',
    download w self url st = (Ok (s, n - s), st')
    /\ forall e, snd run = Some e ->
         In (EvLog (download_error_record e)) (trace st').
Proof.
  intros Hp Hi Ht n run s.
  apply fetch_result_returned in Hi.
  destruct (@download_run w self url st info Hp Hi Ht) as (logs & c' & E & L).
  eexists. split; [exact E|].
  intros e He. simpl. fold n. fold run. rewrite He. simpl. auto.
Qed.

Lemma download_returns_finished_count_witness :
  exists st',
    download Examples.host_three_of_five Examples.audio_service
             Examples.playlist_url Examples.start = (Ok (3, 2), st')
    /\ forall e, Some (DownloadError "HTTP Error 403: Forbidden") = Some e ->
         In (EvLog (download_error_record e)) (trace st').
Proof.
  apply (@download_returns_finished_count Examples.host_three_of_five
           Examples.audio_service Examples.playlist_url Examples.start
           Examples.five_items).
  - right. exists "/usr/bin/ffmpeg"%string. reflexivity.
  - reflexivity.
  - reflexivity.
Defined.

(** C10. Whenever [download] returns a pair (s, f) after a successful
    metadata query, s + f is the item total derived from the metadata; f is
    that total minus s, with no clamping, so it is negative as soon as more
    "finished" events were observed than the total. *)
Theorem download_pair_sums_to_total (w : world) (self : YouTubeDownloadService)
    (url : string) (st : state) (info : info_dict) (s f : Z) :
  prerequisite_ok w self ->
  extract_info w url = inr (Some info) ->
  info_truthy (Some info) = true ->
  fst (download w self url st) = Ok (s, f) ->
  s + f = item_total info
  /\ f = item_total info - s
  /\ s = count_finished
           (fst (ydl_download w (_build_opts self (item_total info >? 1)) url))
  /\ (item_total info < s -> f < 0).
Proof.
  intros Hp Hi Ht Hr.
  apply fetch_result_returned in Hi.
  destruct (@download_run w self url st info Hp Hi Ht) as (logs & c' & E & L).
  rewrite E in Hr. simpl in Hr. inversion Hr; subst.
  repeat split; lia.
Qed.

Lemma download_pair_sums_to_total_witness :
  fst (download Examples.host_two_streams Examples.video_service
                Examples.video_url Examples.start) = Ok (2, -1)
  /\ 2 + -1 = item_total Examples.single_video
  /\ -1 = item_total Examples.single_video - 2
  /\ 2 = count_finished
           (fst (ydl_download Examples.host_two_streams
                   (_build_opts Examples.video_service
                      (item_total Examples.single_video >? 1))
                   Examples.video_url))
  /\ (item_total Examples.single_video < 2 -> -1 < 0).
Proof.
  split; [reflexivity|].
  apply (@download_pair_sums_to_total Examples.host_two_streams
           Examples.video_service Examples.video_url Examples.start
           Examples.single_video 2 (-1)).
  - left. reflexivity.
  - reflexivity.
  - reflexivity.
  - reflexivity.
Defined.

(* ===================================================================== *)
(** ** The prerequisite and the metadata query *)
(* ===================================================================== *)

Lemma hook_events_not_which (n : Z) (l : list event) :
  forallb (hook_event n) l = true -> existsb is_which l = false.
Proof.
  induction l as [|e l IH]; simpl; [reflexivity|].
  intros H. apply andb_true_iff in H as [He Hl].
  destruct e; simpl in *; try discriminate; apply IH, Hl.
Qed.

Lemma hook_events_not_download (n : Z) (l : list event) :
  forallb (hook_event n) l = true -> existsb is_download l = false.
Proof.
  induction l as [|e l IH]; simpl; [reflexivity|].
  intros H. apply andb_true_iff in H as [He Hl].
  destruct e; simpl in *; try discriminate; apply IH, Hl.
Qed.

Lemma fetch_events_spec (w : world) (url : string) :
  existsb is_which (fetch_events w url) = false
  /\ existsb is_download (fetch_events w url) = false
  /\ In (EvExtractInfo url) (fetch_events w url).
Proof.
  unfold fetch_events. destruct (extract_info w url); simpl; auto.
Qed.

Lemma outcome_events_logs (n : Z) (o : option exn) :
  forallb (hook_event n) (outcome_events o) = true.
Proof. destruct o; reflexivity. Qed.

Lemma info_truthy_some (r : option info_dict) :
  info_truthy r = true -> exists info, r = Some info.
Proof. destruct r; [eauto | discriminate]. Qed.

(** In video mode [download] returns, whatever the executable search says,
    and never consults it. *)
Lemma download_video_mode (w : world) (self : YouTubeDownloadService)
    (url : string) (st : state) :
  _download_video self = true ->
  exists r st' new,
    download w self url st = (Ok r, st')
    /\ trace st' = new ++ trace st
    /\ existsb is_which new = false
    /\ In (EvExtractInfo url) new.
Proof.
  intros Hv.
  assert (Hp : prerequisite_ok w self) by (left; exact Hv).
  assert (He : prerequisite_events self = []).
  { unfold prerequisite_events. rewrite Hv. reflexivity. }
  destruct (fetch_events_spec w url) as (Fw & _ & Fi).
  destruct (info_truthy (fetch_result w url)) eqn:Ht.
  - destruct (info_truthy_some _ Ht) as [info Hi]. rewrite Hi in Ht.
    destruct (@download_run w self url st info Hp Hi Ht) as (logs & c' & E & L).
    do 2 eexists.
    exists (outcome_events
              (snd (ydl_download w (_build_opts self (item_total info >? 1)) url))
            ++ logs
            ++ [EvDownload (_build_opts self (item_total info >? 1)) url;
                EvLog (total_record (item_total info))]
            ++ fetch_events w url).
    split; [exact E|]. simpl. rewrite He. simpl.
    split; [rewrite <- !app_assoc; reflexivity|].
    split.
    + rewrite !existsb_app.
      rewrite (@hook_events_not_which 0 _ (outcome_events_logs 0 _)).
      rewrite (@hook_events_not_which _ _ L). simpl. exact Fw.
    + apply in_or_app; right. apply in_or_app; right.
      simpl. right. right. exact Fi.
  - rewrite (@download_fetch_failed w self url st Hp Ht).
    do 2 eexists. exists (EvLog (invalid_url_record url) :: fetch_events w url).
    rewrite He. simpl. repeat split; auto.
Qed.

Lemma ffmpeg_missing_raises (w : world) (self : YouTubeDownloadService)
    (url : string) (st : state) :
  _download_video self = false ->
  which w "ffmpeg" = None ->
  download w self url st =
    (Raise (RuntimeError ffmpeg_message),
     State (dirs st) (EvWhich "ffmpeg" :: trace st) (next_ref st) (cells st)).
Proof.
  intros Hv Hw. unfold download. rewrite Hv. simpl.
  unfold _check_ffmpeg, shutil_which. run. rewrite Hw. reflexivity.
Qed.

(** C5. Where ffmpeg is not found on the search path: in audio mode
    [download] raises a RuntimeError that names FFmpeg, having done nothing
    but the search, hence before any network call; in video mode the search
    is not made, [download] returns and goes on to the metadata query, and
    behaves as on a host that has ffmpeg. *)
Theorem ffmpeg_required_in_audio_mode_only (w : world)
    (self : YouTubeDownloadService) (url : string) (st : state) :
  which w "ffmpeg" = None ->
  if _download_video self
  then (exists r st' new,
          download w self url st = (Ok r, st')
          /\ trace st' = new ++ trace st
          /\ existsb is_which new = false
          /\ In (EvExtractInfo url) new)
       /\ forall f, download (with_which w f) self url st = download w self url st
  else download w self url st =
         (Raise (RuntimeError ffmpeg_message),
          State (dirs st) (EvWhich "ffmpeg" :: trace st) (next_ref st) (cells st))
       /\ existsb is_network [EvWhich "ffmpeg"] = false
       /\ str_in "FFmpeg" ffmpeg_message = true.
Proof.
  intros Hw. destruct (_download_video self) eqn:Hv.
  - split; [apply download_video_mode; exact Hv|].
    intros f. unfold download. rewrite Hv. reflexivity.
  - split; [|split; reflexivity].
    apply ffmpeg_missing_raises; assumption.
Qed.

Lemma ffmpeg_required_in_audio_mode_only_witness :
  download (Examples.without_ffmpeg Examples.host_partial) Examples.audio_service
           Examples.playlist_url Examples.start =
    (Raise (RuntimeError ffmpeg_message),
     State (dirs Examples.start) (EvWhich "ffmpeg" :: trace Examples.start)
           (next_ref Examples.start) (cells Examples.start))
  /\ existsb is_network [EvWhich "ffmpeg"] = false
  /\ str_in "FFmpeg" ffmpeg_message = true.
Proof.
  apply (@ffmpeg_required_in_audio_mode_only
           (Examples.without_ffmpeg Examples.host_partial) Examples.audio_service
           Examples.playlist_url Examples.start).
  reflexivity.
Defined.

(** The video-mode half on a host without ffmpeg. *)
Lemma video_mode_without_ffmpeg :
  fst (download (Examples.without_ffmpeg Examples.host_two_streams)
                Examples.video_service Examples.video_url Examples.start)
  = Ok (2, -1).
Proof. reflexivity. Qed.

(** C6. The metadata query never raises: an error of the extraction
    library is logged and [None] is returned.  And when the query returns
    [None] or an empty dict, [download] (its prerequisite holding) returns
    (0, 0) and the library's download is never started. *)
Theorem metadata_failure_aborts_request (w : world) (self : YouTubeDownloadService)
    (url : string) (st : state) :
  (exists r st1,
     get_playlist_info w self url st = (Ok r, st1)
     /\ forall e, extract_info w url = inl e ->
          r = None /\ In (EvLog (fetch_error_record e)) (trace st1))
  /\ forall r,
       prerequisite_ok w self ->
       fst (get_playlist_info w self url st) = Ok r ->
       info_truthy r = false ->
       exists st' new,
         download w self url st = (Ok (0, 0), st')
         /\ trace st' = new ++ trace st
         /\ existsb is_download new = false
         /\ dirs st' = dirs st.
Proof.
  split.
  - rewrite get_playlist_info_run. do 2 eexists. split; [reflexivity|].
    intros e He. unfold fetch_result, fetch_events. rewrite He. simpl. auto.
  - intros r Hp Hr Ht.
    rewrite get_playlist_info_run in Hr. simpl in Hr. inversion Hr; subst r.
    rewrite (@download_fetch_failed w self url st Hp Ht).
    eexists.
    exists (EvLog (invalid_url_record url)
              :: fetch_events w url ++ prerequisite_events self).
    split; [reflexivity|]. simpl.
    split; [rewrite <- app_assoc; reflexivity|].
    split; [|reflexivity].
    rewrite existsb_app.
    destruct (fetch_events_spec w url) as (_ & Fd & _). rewrite Fd.
    unfold prerequisite_events. destruct (_download_video self); reflexivity.
Qed.

Lemma metadata_failure_aborts_request_witness :
  exists st' new,
    download Examples.host_unavailable Examples.audio_service
             Examples.gone_url Examples.start = (Ok (0, 0), st')
    /\ trace st' = new ++ trace Examples.start
    /\ existsb is_download new = false
    /\ dirs st' = dirs Examples.start.
Proof.
  apply (proj2 (@metadata_failure_aborts_request Examples.host_unavailable
                  Examples.audio_service Examples.gone_url Examples.start) None).
  - right. exists "/usr/bin/ffmpeg"%string. reflexivity.
  - reflexivity.
  - reflexivity.
Defined.


(* ===================================================================== *)
(** ** The options bundle and the output layout *)
(* ===================================================================== *)

Lemma str_app_assoc (a b c : string) : ((a ++ b) ++ c = a ++ (b ++ c))%string.
Proof. induction a as [|x a IH]; simpl; [reflexivity | now rewrite IH]. Qed.

Lemma ends_with_app (suffix a b : string) :
  ends_with suffix b -> ends_with suffix (a ++ b)%string.
Proof.
  intros [pre ->]. exists (a ++ pre)%string. now rewrite str_app_assoc.
Qed.

Lemma join_cons (sep x : string) (xs : list string) :
  xs <> [] -> join sep (x :: xs) = (x ++ sep ++ join sep xs)%string.
Proof. destruct xs; [congruence | reflexivity]. Qed.

(** Joining ends with the join of any non-empty tail. *)
Lemma join_app_ends (sep : string) (ps qs : list string) :
  qs <> [] -> exists pre, join sep (ps ++ qs) = (pre ++ join sep qs)%string.
Proof.
  intros Hq. induction ps as [|p ps [pre IH]].
  - exists EmptyString. reflexivity.
  - exists (p ++ sep ++ pre)%string.
    rewrite <- app_comm_cons, join_cons.
    + rewrite IH, !str_app_assoc. reflexivity.
    + destruct ps; [exact Hq | discriminate].
Qed.

Lemma path_str_ends (a : bool) (ps qs : list string) :
  qs <> [] -> exists pre, path_str (Path a (ps ++ qs)) = (pre ++ join "/" qs)%string.
Proof.
  intros Hq. destruct (join_app_ends "/" ps Hq) as [pre E].
  unfold path_str. simpl. destruct a.
  - exists ("/" ++ pre)%string. rewrite E. reflexivity.
  - destruct (ps ++ qs) eqn:El.
    + destruct ps, qs; try discriminate; congruence.
    + exists pre. exact E.
Qed.

(** A relative template is appended to the output directory. *)
Lemma path_div_template (d : path) (tmpl : string) :
  is_abs (path_of_string tmpl) = false ->
  path_div d tmpl = Path (is_abs d) (parts d ++ parts (path_of_string tmpl)).
Proof. intros H. unfold path_div, joinpath. rewrite H. reflexivity. Qed.

Lemma outtmpl_ends_with (d : path) (tmpl suffix : string) :
  is_abs (path_of_string tmpl) = false ->
  parts (path_of_string tmpl) <> [] ->
  ends_with suffix (join "/" (parts (path_of_string tmpl))) ->
  ends_with suffix (path_str (path_div d tmpl)).
Proof.
  intros Ha Hp He. rewrite (path_div_template d _ Ha).
  destruct (path_str_ends (is_abs d) (parts d) Hp) as [pre ->].
  apply ends_with_app, He.
Qed.

(** C7. The options bundle.  Audio mode: the output template ends in
    [.wav], the format selector is the best-audio one, and the
    post-processing directives extract WAV audio at 44100 Hz, 2 channels,
    16-bit PCM.  Video mode: the format selector is the best-video plus
    best-audio one, the template keeps the generic extension placeholder,
    and neither post-processors nor their arguments are attached. *)
Theorem build_opts_by_mode (self : YouTubeDownloadService) (is_playlist : bool) :
  let opts := _build_opts self is_playlist in
  if _download_video self
  then opt_format opts = "bestvideo+bestaudio/best"%string
       /\ opt_outtmpl opts =
            path_str (path_div (_output_dir self)
                        (if is_playlist then OUTPUT_TEMPLATE else SINGLE_VIDEO_TEMPLATE))
       /\ ends_with "%(title)s.%(ext)s" (opt_outtmpl opts)
       /\ opt_postprocessors opts = None
       /\ opt_postprocessor_args opts = None
  else opt_format opts = "bestaudio/best"%string
       /\ opt_outtmpl opts =
            path_str (path_div (_output_dir self)
                        (if is_playlist then OUTPUT_TEMPLATE_WAV
                         else SINGLE_VIDEO_TEMPLATE_WAV))
       /\ ends_with ".wav" (opt_outtmpl opts)
       /\ opt_postprocessors opts = Some [PostProcessor "FFmpegExtractAudio" "wav"]
       /\ opt_postprocessor_args opts =
            Some [("extractaudio+ffmpeg"%string,
                   ["-ar"; "44100"; "-ac"; "2"; "-acodec"; "pcm_s16le"]%string)].
Proof.
  unfold _build_opts. destruct (_download_video self); simpl.
  - repeat split.
    destruct is_playlist; apply outtmpl_ends_with;
      try reflexivity; try discriminate.
    + exists "%(playlist_title)s/"%string. reflexivity.
    + exists EmptyString. reflexivity.
  - repeat split.
    destruct is_playlist; apply outtmpl_ends_with;
      try reflexivity; try discriminate.
    + exists "%(playlist_title)s/%(title)s"%string. reflexivity.
    + exists "%(title)s"%string. reflexivity.
Qed.

Lemma removelast_snoc (A : Type) (l : list A) (x : A) : removelast (l ++ [x]) = l.
Proof. rewrite removelast_app by discriminate. simpl. apply app_nil_r. Qed.

Lemma last_snoc (l : list string) (x d : string) : last (l ++ [x]) d = x.
Proof. apply last_last. Qed.

(** The two layouts: the file directly in [d], or in a folder of [d]. *)
Lemma single_layout (d : path) (file : string) :
  parent (Path (is_abs d) (parts d ++ [file])) = d.
Proof. unfold parent. simpl. rewrite removelast_snoc. destruct d; reflexivity. Qed.

Lemma playlist_layout (d : path) (folder file : string) :
  let P := Path (is_abs d) (parts d ++ [folder; file]) in
  parent (parent P) = d /\ name (parent P) = folder.
Proof.
  unfold parent, name. simpl.
  replace (parts d ++ [folder; file]) with ((parts d ++ [folder]) ++ [file])
    by (rewrite <- app_assoc; reflexivity).
  rewrite !removelast_snoc, last_snoc. destruct d; split; reflexivity.
Qed.

Lemma build_opts_layout (self : YouTubeDownloadService) (is_playlist : bool) :
  exists P,
    P = path_div (_output_dir self)
                 (selected_template (_download_video self) is_playlist)
    /\ opt_outtmpl (_build_opts self is_playlist) = path_str P
    /\ if is_playlist
       then parent (parent P) = _output_dir self
            /\ name (parent P) = "%(playlist_title)s"%string
       else parent P = _output_dir self.
Proof.
  unfold _build_opts.
  destruct is_playlist, (_download_video self); simpl;
    eexists; (split; [reflexivity|]); (split; [reflexivity|]);
    rewrite path_div_template by reflexivity; simpl;
    first [apply playlist_layout | apply single_layout].
Qed.

(** C9. After a successful metadata query the library's download is
    started with the options built for [is_playlist = total > 1]: the
    playlist template of the mode is selected exactly when the derived
    total exceeds 1, the single-video template otherwise.  The selected
    template is the path [P]; it lies in a folder named by the
    playlist-title placeholder inside the output directory when the total
    exceeds 1, and directly in the output directory when the total is 1 or
    less, so also for a playlist of which one entry only is available. *)
Theorem playlist_layout_iff_total_above_one (w : world)
    (self : YouTubeDownloadService) (url : string) (st : state) (info : info_dict) :
  prerequisite_ok w self ->
  extract_info w url = inr (Some info) ->
  info_truthy (Some info) = true ->
  let n := item_total info in
  let opts := _build_opts self (n >? 1) in
  exists P,
    In (EvDownload opts url) (trace (snd (download w self url st)))
    /\ P = path_div (_output_dir self)
                    (selected_template (_download_video self) (n >? 1))
    /\ opt_outtmpl opts = path_str P
    /\ if n >? 1
       then parent (parent P) = _output_dir self
            /\ name (parent P) = "%(playlist_title)s"%string
       else parent P = _output_dir self.
Proof.
  intros Hp Hi Ht n opts.
  apply fetch_result_returned in Hi.
  destruct (@download_run w self url st info Hp Hi Ht) as (logs & c' & E & L).
  fold n in E. fold opts in E. rewrite E. simpl.
  destruct (build_opts_layout self (n >? 1)) as (P & HP & Ho & Hl).
  exists P. split; [|repeat split; assumption].
  apply in_trace_download_run. left. reflexivity.
Qed.

Lemma playlist_layout_iff_total_above_one_witness :
  exists P,
    In (EvDownload (_build_opts Examples.audio_service false) Examples.playlist_url)
       (trace (snd (download Examples.host_one_available Examples.audio_service
                             Examples.playlist_url Examples.start)))
    /\ P = path_div Examples.music SINGLE_VIDEO_TEMPLATE_WAV
    /\ opt_outtmpl (_build_opts Examples.audio_service false) = path_str P
    /\ parent P = Examples.music.
Proof.
  apply (@playlist_layout_iff_total_above_one Examples.host_one_available
           Examples.audio_service Examples.playlist_url Examples.start
           Examples.one_available).
  - right. exists "/usr/bin/ffmpeg"%string. reflexivity.
  - reflexivity.
  - reflexivity.
Defined.

(* ===================================================================== *)
(** ** Paths and the filesystem *)
(* ===================================================================== *)

Lemma normalize_onto_plain (acc ps : list string) :
  no_dotdot ps = true -> normalize_onto acc ps = acc ++ ps.
Proof.
  revert acc. induction ps as [|p ps IH]; intros acc H; simpl.
  - now rewrite app_nil_r.
  - simpl in H. apply andb_true_iff in H as [Hp Hps].
    apply negb_true_iff in Hp. rewrite Hp, IH by exact Hps.
    rewrite <- app_assoc. reflexivity.
Qed.

Lemma no_dotdot_app (xs ys : list string) :
  no_dotdot xs = true -> no_dotdot ys = true -> no_dotdot (xs ++ ys) = true.
Proof.
  unfold no_dotdot. intros Hx Hy. rewrite forallb_app, Hx, Hy. reflexivity.
Qed.

Lemma is_prefix_app (xs ys : list string) : is_prefix xs (xs ++ ys) = true.
Proof.
  induction xs as [|x xs IH]; simpl; [reflexivity|].
  now rewrite String.eqb_refl, IH.
Qed.

(** [expanduser] returns exactly when the home directory is known, and
    never changes the state. *)
Lemma expanduser_run (w : world) (p : path) (st : state) :
  snd (expanduser w p st) = st
  /\ (home_known w p = true -> exists q, fst (expanduser w p st) = Ok q)
  /\ (home_known w p = false ->
      fst (expanduser w p st) = Raise (RuntimeError "Could not determine home directory.")).
Proof.
  unfold expanduser, home_known.
  assert (Hret : forall q : path,
             snd (ret q st) = st
             /\ (true = true -> exists q', fst (ret q st) = Ok q')
             /\ (true = false ->
                 fst (ret q st) = Raise (RuntimeError "Could not determine home directory."))).
  { intros q. split; [reflexivity|].
    split; [intros _; eexists; reflexivity | intros H; discriminate H]. }
  destruct (is_abs p); [apply Hret|].
  destruct (parts p) as [|[|c user] rest]; try apply Hret.
  destruct c as [[] [] [] [] [] [] [] []]; try apply Hret.
  destruct (if is_empty user then home w else user_home w user); [apply Hret|].
  split; [reflexivity|].
  split; [intros H; discriminate H | intros _; reflexivity].
Qed.

(** [resolve] leaves the state alone, and what it returns is absolute. *)
Lemma resolve_run (w : world) (p : path) (st : state) :
  snd (resolve w p st) = st
  /\ (forall q, fst (resolve w p st) = Ok q -> is_abs q = true)
  /\ (forall e, fst (resolve w p st) = Raise e -> realpath w p = inl e).
Proof.
  unfold resolve. destruct (realpath w p) as [e|q]; simpl.
  - split; [reflexivity|]. split; [discriminate|]. intros e' H. inversion H. reflexivity.
  - split; [reflexivity|]. split; [|discriminate]. intros q' H. inversion H. reflexivity.
Qed.

(** C8, as the code has it.  [normalize_output_path] never changes the
    filesystem and leaves no event behind, whether it returns or raises.
    Whatever it returns is an absolute path.  It raises RuntimeError when
    the home directory that a leading [~] or [~user] stands for cannot be
    determined; when that directory is known, or the path has no such
    component, it returns unless the host fails to resolve the expanded
    path, whose error it then raises.  For [~/rest], with the invoking
    user's home [h] known, it is [h/rest] that is resolved; where the host
    finds no symbolic link and no [..] to resolve in it, the result is
    [h/rest] itself, which lies under [h]. *)
Theorem normalize_output_path_pure_and_absolute (w : world) (path : pathlike)
    (st : state) :
  snd (normalize_output_path w path st) = st
  /\ (forall p, fst (normalize_output_path w path st) = Ok p -> is_abs p = true)
  /\ (home_known w (Path_ path) = false ->
      fst (normalize_output_path w path st)
      = Raise (RuntimeError "Could not determine home directory."))
  /\ (home_known w (Path_ path) = true ->
      (exists p, fst (normalize_output_path w path st) = Ok p)
      \/ (exists q e, realpath w q = inl e
                      /\ fst (normalize_output_path w path st) = Raise e))
  /\ forall h rest,
       Path_ path = Path false ("~"%string :: rest) ->
       home w = Some h ->
       normalize_output_path w path st = resolve w (Path true (h ++ rest)) st
       /\ (realpath w (Path true (h ++ rest)) = inr (h ++ rest) ->
           fst (normalize_output_path w path st) = Ok (Path true (h ++ rest))
           /\ is_prefix h (h ++ rest) = true).
Proof.
  unfold normalize_output_path, bind.
  destruct (expanduser_run w (Path_ path) st) as (Hs & Hok & Hraise).
  destruct (expanduser w (Path_ path) st) as [[q|e] st1] eqn:E; simpl in *; subst st1.
  - destruct (resolve_run w q st) as (Rs & Rabs & Rraise).
    split; [exact Rs|].
    split; [exact Rabs|].
    split; [intros Hk; specialize (Hraise Hk); discriminate|].
    split.
    + intros _. destruct (resolve w q st) as [[p|e] st2] eqn:Er.
      * left. eexists. reflexivity.
      * right. exists q, e. split; [apply Rraise|]; reflexivity.
    + intros h rest HP Hh.
      unfold expanduser in E. rewrite HP in E. simpl in E. rewrite Hh in E.
      inversion E; subst q. split; [reflexivity|].
      intros Hr. unfold resolve. rewrite Hr.
      split; [reflexivity | apply is_prefix_app].
  - split; [reflexivity|].
    split; [discriminate|].
    split; [intros Hk; exact (Hraise Hk)|].
    split; [intros Hk; destruct (Hok Hk) as [q Hq]; discriminate|].
    intros h rest HP Hh.
    unfold expanduser in E. rewrite HP in E. simpl in E. rewrite Hh in E.
    discriminate.
Qed.

Lemma normalize_output_path_pure_and_absolute_witness :
  fst (normalize_output_path Examples.host_partial (PStr "~/x") Examples.start)
    = Ok (Path true (["home"; "user"] ++ ["x"]))
  /\ is_prefix ["home"; "user"] (["home"; "user"] ++ ["x"]) = true.
Proof.
  apply (proj2 (proj2 (proj2 (proj2
    (@normalize_output_path_pure_and_absolute Examples.host_partial
       (PStr "~/x") Examples.start))))
    ["home"; "user"]%string ["x"]%string).
  - reflexivity.
  - reflexivity.
  - reflexivity.
Defined.

(** C8, as stated, fails: for a user whose home directory cannot be
    determined no path is returned. *)
Lemma normalize_output_path_unknown_user :
  ~ exists p st',
      normalize_output_path Examples.host_partial (PStr "~ghost/x") Examples.start
        = (Ok p, st')
      /\ is_abs p = true.
Proof. intros (p & st' & H & _). discriminate H. Qed.

(** Where [~/x] is a symbolic link the result is where the link leads,
    which need not lie under the home directory; and an error of the
    resolution is raised as it is. *)
Lemma normalize_output_path_follows_links :
  fst (normalize_output_path MoreExamples.host_linked (PStr "~/x") Examples.start)
    = Ok (Path true ["mnt"; "disk"; "x"])
  /\ is_prefix ["home"; "user"] ["mnt"; "disk"; "x"] = false
  /\ fst (normalize_output_path MoreExamples.host_linked (PStr "~/loop")
            Examples.start)
     = Raise (RuntimeError "Symlink loop from '/home/user/loop'").
Proof. repeat split. Qed.

(** By contrast [ensure_output_dir] does create what is missing. *)
Lemma ensure_output_dir_creates :
  dirs (snd (ensure_output_dir Examples.host_partial
               (Path true ["music"; "new"]) Examples.start))
  = [["music"; "new"]; ["music"]].
Proof. reflexivity. Qed.

(* ===================================================================== *)
(** ** The exit code *)
(* ===================================================================== *)

(** [download] returns a pair, or raises the RuntimeError of the missing
    ffmpeg; nothing else escapes it. *)
Lemma download_ok_or_runtime_error (w : world) (self : YouTubeDownloadService)
    (url : string) (st : state) :
  (exists s f st', download w self url st = (Ok (s, f), st'))
  \/ (exists st', download w self url st = (Raise (RuntimeError ffmpeg_message), st')).
Proof.
  destruct (_download_video self) eqn:Hv.
  - left. destruct (@download_video_mode w self url st Hv) as ([s f] & st' & _ & E & _).
    eauto.
  - destruct (which w "ffmpeg") as [p|] eqn:Hw.
    + left.
      assert (Hp : prerequisite_ok w self) by (right; eauto).
      destruct (info_truthy (fetch_result w url)) eqn:Ht.
      * destruct (info_truthy_some _ Ht) as [info Hi]. rewrite Hi in Ht.
        destruct (@download_run w self url st info Hp Hi Ht) as (logs & c' & E & _).
        eauto.
      * rewrite (@download_fetch_failed w self url st Hp Ht). eauto.
    + right.
      pose proof (@ffmpeg_missing_raises w self url st Hv Hw) as E. eauto.
Qed.

(** The exit code of the download step, once the service is constructed:
    0 exactly when [download] returned a pair with no failures, 1 when it
    returned failures or raised for the missing ffmpeg. *)
Lemma run_download_exit_code (w : world) (url : string) (output_dir : path)
    (download_video : bool) (st st1 : state) :
  ensure_output_dir w output_dir st = (Ok output_dir, st1) ->
  let self := Build_Service output_dir download_video (Some progress_callback) in
  exists code,
    fst (run_download w url output_dir download_video st) = Ok code
    /\ (code = 0 \/ code = 1)
    /\ (code = 0 <-> exists s, fst (download w self url st1) = Ok (s, 0)).
Proof.
  intros He self. unfold run_download, __init__.
  unfold bind at 1. unfold bind at 1. rewrite He. unfold ret at 1.
  fold self.
  destruct (download_ok_or_runtime_error w self url st1)
    as [(s & f & st' & E) | (st' & E)].
  - unfold bind at 1. unfold try_except, bind at 1. rewrite E. unfold ret at 1.
    run. exists (if f =? 0 then 0 else 1).
    split; [reflexivity|].
    destruct (Z.eqb_spec f 0) as [-> | Hf].
    + split; [auto|]. split; [eauto | reflexivity].
    + split; [auto|]. split; [discriminate|].
      intros [s' Hs]. inversion Hs. congruence.
  - unfold bind at 1. unfold try_except, bind at 1. rewrite E.
    run. exists 1. split; [reflexivity|]. split; [auto|].
    split; [discriminate|]. intros [s' Hs]. discriminate Hs.
Qed.

(** A failed metadata query counts as no failure.  The URL passes
    validation, the query fails, [download] logs the error "Invalid or
    inaccessible URL" and returns (0, 0), and the download step and the
    process end with exit code 0. *)
Lemma inaccessible_url_exits_zero :
  is_valid_youtube_url (ObjStr Examples.gone_url) = true
  /\ fst (download Examples.host_unavailable Examples.audio_service
                   Examples.gone_url Examples.start) = Ok (0, 0)
  /\ In (EvLog (invalid_url_record Examples.gone_url))
        (trace (snd (run_download Examples.host_unavailable Examples.gone_url
                                  Examples.music false Examples.start)))
  /\ fst (run_download Examples.host_unavailable Examples.gone_url
                       Examples.music false Examples.start) = Ok 0
  /\ exit_code Examples.host_unavailable (Examples.cli_args Examples.gone_url)
               Examples.start = 0.
Proof.
  split; [reflexivity|].
  split; [reflexivity|].
  split; [simpl; tauto|].
  split; reflexivity.
Qed.

(** Failures that are reported as such end with exit code 1. *)
Lemma failures_exit_one :
  exit_code Examples.host_three_of_five (Examples.cli_args Examples.playlist_url)
            Examples.start = 1
  /\ exit_code (Examples.without_ffmpeg Examples.host_partial)
               (Examples.cli_args Examples.playlist_url) Examples.start = 1
  /\ exit_code Examples.host_partial (Examples.cli_args "https://example.com/x")
               Examples.start = 1
  /\ exit_code Examples.host_partial (Examples.cli_args Examples.playlist_url)
               Examples.start = 0.
Proof. repeat split. Qed.

(* ===================================================================== *)
(** ** URL validation *)
(* ===================================================================== *)

Lemma is_valid_not_str (o : pyobj) :
  isinstance_str o = false -> is_valid_youtube_url o = false.
Proof.
  intros H. unfold is_valid_youtube_url. rewrite H.
  rewrite orb_true_r. reflexivity.
Qed.

(** What is accepted is a string that, trimmed, is not empty and matches
    the pattern. *)
Lemma is_valid_matches_pattern (o : pyobj) :
  is_valid_youtube_url o = true ->
  exists s, o = ObjStr s
            /\ is_empty (strip s) = false
            /\ pattern_match (strip s) = true.
Proof.
  destruct o as [| b | z | b | s];
    try (intros H; rewrite is_valid_not_str in H by reflexivity; discriminate H).
  unfold is_valid_youtube_url. simpl. rewrite orb_false_r.
  destruct (negb (negb (is_empty s))); [discriminate|].
  destruct (is_empty (strip s)) eqn:He; [discriminate|].
  destruct (pattern_match (strip s)) eqn:Hm; [|discriminate].
  intros _. exists s. auto.
Qed.

Lemma printable_char_facts (c : ascii) :
  is_c0_or_space c = false ->
  is_space c = false /\ is_unsafe c = false /\ Ascii.eqb c newline = false.
Proof.
  unfold is_c0_or_space, is_space, is_unsafe, in_range, newline. intros H.
  apply N.leb_gt in H.
  assert (Hne : forall n, (n <= 32)%N -> Ascii.eqb c (ascii_of_N n) = false).
  { intros n Hn. apply Ascii.eqb_neq. intros ->.
    unfold code in H. rewrite N_ascii_embedding in H; lia. }
  repeat split.
  - destruct (N.leb_spec 9 (code c)), (N.leb_spec (code c) 13),
             (N.leb_spec 28 (code c)), (N.leb_spec (code c) 32);
      simpl; try reflexivity; lia.
  - rewrite !Hne by lia. reflexivity.
  - apply Hne. lia.
Qed.

Lemma printable_cons (c : ascii) (s : string) :
  printable (String c s) = true ->
  is_c0_or_space c = false /\ printable s = true.
Proof.
  unfold printable. simpl. intros H. apply andb_true_iff in H as [Hc Hs].
  apply negb_true_iff in Hc. auto.
Qed.

Lemma rstrip_printable (s : string) : printable s = true -> rstrip s = s.
Proof.
  induction s as [|c s IH]; intros H; [reflexivity|].
  apply printable_cons in H as [Hc Hs].
  destruct (printable_char_facts c Hc) as (Hsp & _ & _).
  simpl. rewrite (IH Hs), Hsp, andb_false_r. reflexivity.
Qed.

Lemma strip_printable (s : string) : printable s = true -> strip s = s.
Proof.
  intros H. unfold strip.
  destruct s as [|c s]; [reflexivity|].
  destruct (printable_cons _ _ H) as [Hc _].
  destruct (printable_char_facts c Hc) as (Hsp & _ & _).
  simpl lstrip. rewrite Hsp. apply rstrip_printable, H.
Qed.

Lemma urlsplit_clean_printable (s : string) :
  printable s = true ->
  filter_str (fun c => negb (is_unsafe c)) (lstrip_by is_c0_or_space s) = s.
Proof.
  intros H.
  assert (Hf : forall t, printable t = true ->
                 filter_str (fun c => negb (is_unsafe c)) t = t).
  { induction t as [|c t IH]; intros Ht; [reflexivity|].
    apply printable_cons in Ht as [Hc Ht].
    destruct (printable_char_facts c Hc) as (_ & Hu & _).
    simpl. rewrite Hu. simpl. now rewrite IH. }
  destruct s as [|c s]; [reflexivity|].
  destruct (printable_cons _ _ H) as [Hc _].
  simpl lstrip_by. rewrite Hc. apply Hf, H.
Qed.

Lemma printable_app (a b : string) :
  printable a = true -> printable b = true -> printable (a ++ b) = true.
Proof.
  unfold printable. induction a as [|c a IH]; simpl; intros Ha Hb; [exact Hb|].
  apply andb_true_iff in Ha as [Hc Ha]. rewrite Hc. simpl. now apply IH.
Qed.

Lemma re_match_nullable (ic : bool) (r : regex) (s : string) :
  nullable r = true -> re_match ic r s = true.
Proof. intros H. destruct s; simpl; rewrite H; reflexivity. Qed.

(** Matching after a known prefix is matching the derivative. *)
Lemma re_match_after_prefix (ic : bool) (p : string) (r : regex) (c : ascii)
    (s : string) :
  nullable (deriv ic (fold_left (deriv ic) (list_ascii_of_string p) r) c) = true ->
  re_match ic r (p ++ String c s) = true.
Proof.
  revert r. induction p as [|a p IH]; intros r H; simpl in *.
  - rewrite re_match_nullable by exact H. apply orb_true_r.
  - rewrite IH by exact H. apply orb_true_r.
Qed.

(** Every lower-case spelling is accepted, whatever non-empty path and
    query follow the slash. *)
Lemma lower_case_urls_accepted (prefix rest : string) :
  In prefix lower_case_prefixes ->
  printable rest = true ->
  rest <> EmptyString ->
  is_valid_youtube_url (ObjStr (prefix ++ rest)) = true.
Proof.
  intros Hin Hp Hne.
  destruct rest as [|c rest]; [congruence|].
  destruct (printable_cons _ _ Hp) as [Hc _].
  destruct (printable_char_facts c Hc) as (_ & _ & Hnl).
  assert (Hpr : printable (prefix ++ String c rest) = true).
  { apply printable_app; [|exact Hp].
    simpl in Hin. repeat destruct Hin as [<- | Hin]; try reflexivity. contradiction. }
  unfold is_valid_youtube_url.
  assert (Hs : isinstance_str (ObjStr (prefix ++ String c rest)) = true) by reflexivity.
  assert (Ht : truthy (ObjStr (prefix ++ String c rest)) = true).
  { simpl in Hin. repeat destruct Hin as [<- | Hin]; try reflexivity. contradiction. }
  rewrite Hs, Ht. simpl negb. simpl orb. cbv iota.
  rewrite (strip_printable _ Hpr).
  unfold urlparse. rewrite (urlsplit_clean_printable _ Hpr).
  simpl in Hin.
  assert (Hm : pattern_match (prefix ++ String c rest) = true).
  { unfold pattern_match. apply re_match_after_prefix.
    repeat destruct Hin as [<- | Hin]; try contradiction;
      match goal with |- nullable (deriv _ ?R c) = true =>
        let R' := eval vm_compute in R in change R with R' end;
      simpl; rewrite Hnl; reflexivity. }
  rewrite Hm. simpl negb. cbv iota.
  repeat destruct Hin as [<- | Hin]; try contradiction; reflexivity.
Qed.

(** C4, at the failing input. A YouTube URL whose host is written with
    capitals matches the case-insensitive pattern, but its netloc is kept
    as written and contains none of the lower-case domains, so the URL is
    rejected; the same URL in lower case is accepted. *)
Theorem mixed_case_host_rejected :
  pattern_match (strip Examples.mixed_case_url) = true
  /\ urlparse (strip Examples.mixed_case_url) = Some (ParseResult "https" "YouTube.com")
  /\ is_valid_youtube_url (ObjStr Examples.mixed_case_url) = false
  /\ is_valid_youtube_url (ObjStr (lower Examples.mixed_case_url)) = true.
Proof. repeat split. Qed.

(* ===================================================================== *)
(** ** Beyond the claims: creating the output directory *)
(* ===================================================================== *)

Import SpecExtra MoreExamples.

Lemma mem_dir_head (d : list string) (ds : list (list string)) :
  mem_dir d (d :: ds) = true.
Proof. simpl. destruct (list_eq_dec string_dec d d); [reflexivity | congruence]. Qed.

Lemma mem_dir_tail (d d' : list string) (ds : list (list string)) :
  mem_dir d ds = true -> mem_dir d (d' :: ds) = true.
Proof. intros H. simpl. rewrite H. apply orb_true_r. Qed.

Lemma mem_dir_other (d d' : list string) (ds : list (list string)) :
  d <> d' -> mem_dir d (d' :: ds) = mem_dir d ds.
Proof.
  intros H. simpl. destruct (list_eq_dec string_dec d d'); [congruence | reflexivity].
Qed.

Lemma dir_exists_extend (st : state) (new : list event) (d : list string) :
  dir_exists (extend st new) d = dir_exists st d.
Proof. reflexivity. Qed.

Section Mkdir.
Variable w : world.

(** One step of [mkdir_each], by cases. *)
Lemma mkdir_each_cons (d : list string) (ds : list (list string)) (st : state) :
  mkdir_each w (d :: ds) st =
    if dir_exists st d then mkdir_each w ds st
    else if may_create w d
         then mkdir_each w ds
                (State (d :: dirs st) (EvMkdir d :: trace st) (next_ref st) (cells st))
         else (Raise (OSError "cannot create directory"), st).
Proof.
  simpl. unfold bind at 1. unfold bind at 1.
  destruct (dir_exists st d); [reflexivity|].
  destruct (may_create w d); reflexivity.
Qed.

Lemma mem_dir_app (d : list string) (made ds : list (list string)) :
  mem_dir d ds = true -> mem_dir d (made ++ ds) = true.
Proof.
  intros H. induction made as [|m made IH]; [exact H|].
  simpl. rewrite IH. apply orb_true_r.
Qed.

Lemma mem_dir_cons_false (d d' : list string) (ds : list (list string)) :
  mem_dir d (d' :: ds) = false -> mem_dir d ds = false.
Proof. simpl. intros H. apply orb_false_iff in H. apply H. Qed.

(** [mkdir_each] returns or raises OSError; it only adds directories, all
    of them among those asked for and missing before, and leaves nothing
    but their creation in the trace. *)
Lemma mkdir_each_shape (ds : list (list string)) (st : state) :
  exists r made,
    mkdir_each w ds st =
      (r, State (made ++ dirs st) (map EvMkdir made ++ trace st)
                (next_ref st) (cells st))
    /\ (r = Ok tt \/ r = Raise (OSError "cannot create directory"))
    /\ incl made ds
    /\ forall d, In d made -> dir_exists st d = false.
Proof.
  revert st. induction ds as [|d ds IH]; intros st.
  - exists (Ok tt), []. split; [destruct st; reflexivity|].
    split; [auto|]. split; [apply incl_nil_l | intros d []].
  - rewrite mkdir_each_cons.
    destruct (dir_exists st d) eqn:Hex.
    + destruct (IH st) as (r & made & E & Hr & Hi & Hm).
      exists r, made. split; [exact E|]. split; [exact Hr|].
      split; [apply incl_tl, Hi | exact Hm].
    + destruct (may_create w d).
      * destruct (IH (State (d :: dirs st) (EvMkdir d :: trace st)
                            (next_ref st) (cells st)))
          as (r & made & E & Hr & Hi & Hm).
        exists r, (made ++ [d]). simpl in E. rewrite E.
        split; [rewrite map_app, <- !app_assoc; reflexivity|].
        split; [exact Hr|].
        split; [apply incl_app; [apply incl_tl, Hi
                                | intros x [<- | []]; left; reflexivity]|].
        intros x Hx. apply in_app_or in Hx. destruct Hx as [Hx | [<- | []]];
          [|exact Hex].
        specialize (Hm x Hx). destruct x as [|y x]; [discriminate Hm|].
        exact (mem_dir_cons_false _ _ _ Hm).
      * exists (Raise (OSError "cannot create directory")), [].
        split; [destruct st; reflexivity|]. split; [auto|].
        split; [apply incl_nil_l | intros x []].
Qed.

(** Nothing that exists is lost. *)
Lemma mkdir_each_keeps (ds : list (list string)) (st : state) (d : list string) :
  dir_exists st d = true -> dir_exists (snd (mkdir_each w ds st)) d = true.
Proof.
  intros H. destruct (mkdir_each_shape ds st) as (r & made & E & _ & _ & _).
  rewrite E. simpl. destruct d as [|x d]; [reflexivity|].
  simpl in *. apply (@mem_dir_app (x :: d)), H.
Qed.

(** After a successful run every directory asked for exists. *)
Lemma mkdir_each_ok (ds : list (list string)) (st st' : state) :
  mkdir_each w ds st = (Ok tt, st') ->
  forall d, In d ds -> dir_exists st' d = true.
Proof.
  revert st. induction ds as [|d0 ds IH]; intros st E d Hin; [contradiction|].
  rewrite mkdir_each_cons in E.
  destruct (dir_exists st d0) eqn:Hex.
  - destruct Hin as [<- | Hin]; [|exact (IH _ E _ Hin)].
    pose proof (@mkdir_each_keeps ds st d0 Hex) as K. rewrite E in K. exact K.
  - destruct (may_create w d0); [|discriminate E].
    destruct Hin as [<- | Hin]; [|exact (IH _ E _ Hin)].
    match type of E with mkdir_each w ds ?s = _ =>
      assert (K : dir_exists (snd (mkdir_each w ds s)) d0 = true) end.
    { apply mkdir_each_keeps. destruct d0; [reflexivity|]. apply mem_dir_head. }
    rewrite E in K. exact K.
Qed.

(** Where everything exists already, nothing happens, whatever the
    permissions. *)
Lemma mkdir_each_noop (ds : list (list string)) (st : state) :
  (forall d, In d ds -> dir_exists st d = true) ->
  mkdir_each w ds st = (Ok tt, st).
Proof.
  induction ds as [|d ds IH]; intros H; [reflexivity|].
  rewrite mkdir_each_cons, (H d (or_introl eq_refl)).
  apply IH. intros d' Hd'. apply H. right. exact Hd'.
Qed.

(** A failure has a cause: a directory asked for that is missing and may
    not be created. *)
Lemma mkdir_each_raise (ds : list (list string)) (st st' : state) (e : exn) :
  mkdir_each w ds st = (Raise e, st') ->
  exists d, In d ds /\ may_create w d = false /\ dir_exists st' d = false.
Proof.
  revert st. induction ds as [|d0 ds IH]; intros st E; [discriminate E|].
  rewrite mkdir_each_cons in E.
  destruct (dir_exists st d0) eqn:Hex.
  - destruct (IH _ E) as (d & Hin & Hc & Hm). exists d. auto using in_cons.
  - destruct (may_create w d0) eqn:Hc.
    + destruct (IH _ E) as (d & Hin & Hc' & Hm). exists d. auto using in_cons.
    + inversion E; subst. exists d0. auto using in_eq.
Qed.

(** And such a directory always makes the run fail. *)
Lemma mkdir_each_blocked (ds : list (list string)) (st : state) (d : list string) :
  In d ds -> may_create w d = false -> dir_exists st d = false ->
  exists st', mkdir_each w ds st = (Raise (OSError "cannot create directory"), st').
Proof.
  revert st. induction ds as [|d0 ds IH]; intros st Hin Hc Hm; [contradiction|].
  rewrite mkdir_each_cons.
  destruct (list_eq_dec string_dec d d0) as [<- | Hne].
  - rewrite Hm, Hc. eauto.
  - destruct Hin as [-> | Hin]; [congruence|].
    destruct (dir_exists st d0) eqn:Hex; [apply IH; assumption|].
    destruct (may_create w d0); [|eauto].
    apply IH; try assumption.
    destruct d as [|x d]; [discriminate Hm|].
    change (mem_dir (x :: d) (d0 :: dirs st) = false).
    rewrite mem_dir_other by exact Hne. exact Hm.
Qed.

End Mkdir.

Lemma prefixes_from_last (acc ps : list string) :
  ps <> [] -> In (acc ++ ps) (prefixes_from acc ps).
Proof.
  revert acc. induction ps as [|p ps IH]; intros acc H; [congruence|].
  simpl. destruct ps as [|q ps].
  - left. reflexivity.
  - right. replace (acc ++ p :: q :: ps) with ((acc ++ [p]) ++ q :: ps)
      by (rewrite <- app_assoc; reflexivity).
    apply IH. discriminate.
Qed.

Lemma ensure_output_dir_unfold (w : world) (p : path) (st : state) :
  ensure_output_dir w p st =
    match mkdir_each w (ancestors w p) st with
    | (Ok _, st') => (Ok p, st')
    | (Raise e, st') => (Raise e, st')
    end.
Proof. reflexivity. Qed.

(** Where the directory and its ancestors exist, [ensure_output_dir]
    returns its argument and changes nothing. *)
Lemma ensure_output_dir_noop (w : world) (p : path) (st : state) :
  (forall d, In d (ancestors w p) -> dir_exists st d = true) ->
  ensure_output_dir w p st = (Ok p, st).
Proof.
  intros H. rewrite ensure_output_dir_unfold, mkdir_each_noop by exact H.
  reflexivity.
Qed.

(** The directory a path names is the last on its way. *)
Lemma absolute_on_the_way (w : world) (p : path) :
  parts p <> [] -> In (absolute w p) (ancestors w p).
Proof.
  intros H. unfold ancestors, on_the_way, absolute.
  destruct (is_abs p);
    apply in_map, (@prefixes_from_last [] (parts p)), H.
Qed.

(** A created directory stays created as long as nothing is removed. *)
Lemma ensure_then_noop (w : world) (d q : path) (st st1 st2 : state) :
  ensure_output_dir w d st = (Ok q, st1) ->
  (forall b, dir_exists st1 b = true -> dir_exists st2 b = true) ->
  ensure_output_dir w d st2 = (Ok d, st2).
Proof.
  intros E Hk. rewrite ensure_output_dir_unfold in E.
  destruct (mkdir_each w (ancestors w d) st) as [[[]|e] st'] eqn:Em;
    [|discriminate E].
  inversion E; subst q st'. apply ensure_output_dir_noop.
  intros b Hb. apply Hk. exact (@mkdir_each_ok w _ _ _ Em b Hb).
Qed.

(** X1. [ensure_output_dir] is idempotent: after a call that returned, a
    further call on the same path, on the same host with its permissions
    as they were, returns the path and changes nothing, at once and in
    any later state in which no directory has been removed. *)
Theorem ensure_output_dir_idempotent (w : world) (p q : path)
    (st st1 : state) :
  ensure_output_dir w p st = (Ok q, st1) ->
  q = p
  /\ ensure_output_dir w p st1 = (Ok p, st1)
  /\ forall st2,
       (forall d, dir_exists st1 d = true -> dir_exists st2 d = true) ->
       ensure_output_dir w p st2 = (Ok p, st2).
Proof.
  intros E.
  assert (Hq : q = p).
  { rewrite ensure_output_dir_unfold in E.
    destruct (mkdir_each w (ancestors w p) st) as [[[]|e] st']; [|discriminate E].
    inversion E. reflexivity. }
  split; [exact Hq|].
  split.
  - apply (@ensure_then_noop w p q st st1 st1 E). auto.
  - intros st2 Hk. exact (@ensure_then_noop w p q st st1 st2 E Hk).
Qed.

Lemma ensure_output_dir_idempotent_witness :
  new_folder = new_folder
  /\ ensure_output_dir Examples.host_partial new_folder
       (snd (ensure_output_dir Examples.host_partial new_folder Examples.start))
     = (Ok new_folder,
        snd (ensure_output_dir Examples.host_partial new_folder Examples.start))
  /\ forall st2,
       (forall d,
          dir_exists (snd (ensure_output_dir Examples.host_partial new_folder
                             Examples.start)) d = true ->
          dir_exists st2 d = true) ->
       ensure_output_dir Examples.host_partial new_folder st2 = (Ok new_folder, st2).
Proof.
  apply (@ensure_output_dir_idempotent Examples.host_partial new_folder new_folder
           Examples.start).
  reflexivity.
Defined.

(** Without [..] the way to a path is made of its prefixes, taken from
    the root or from the working directory. *)
Lemma on_the_way_plain (w : world) (p : path) :
  no_dotdot (parts p) = true ->
  ancestors w p
  = prefixes_from (if is_abs p then [] else cwd w) (parts p).
Proof.
  unfold ancestors, on_the_way.
  set (base := if is_abs p then [] else cwd w).
  assert (H : forall acc ps,
            no_dotdot acc = true -> no_dotdot ps = true ->
            map (normalize_onto base) (prefixes_from acc ps)
            = map (app base) (prefixes_from acc ps)).
  { intros acc ps. revert acc. induction ps as [|x ps IH]; intros acc Ha Hp;
      [reflexivity|].
    simpl in Hp. apply andb_true_iff in Hp as [Hx Hps].
    assert (Hax : no_dotdot (acc ++ [x]) = true).
    { apply no_dotdot_app; [exact Ha|]. unfold no_dotdot. simpl.
      rewrite Hx. reflexivity. }
    simpl. rewrite normalize_onto_plain by exact Hax.
    rewrite IH by assumption. reflexivity. }
  assert (G : forall acc ps,
            map (app base) (prefixes_from acc ps) = prefixes_from (base ++ acc) ps).
  { intros acc ps. revert acc. induction ps as [|x ps IH]; intros acc;
      [reflexivity|].
    simpl. rewrite IH, <- app_assoc. reflexivity. }
  intros Hp. rewrite H by (auto; reflexivity). rewrite G, app_nil_r. reflexivity.
Qed.

(** X2. When [ensure_output_dir] returns for a path written without
    [..], the directory it names and all those above it, up to the root
    or to the working directory, exist; every directory that existed
    before still does; what was created was missing and is one of these;
    and the trace has gained nothing but these creations. *)
Theorem ensure_output_dir_creates_ancestors (w : world) (p q : path)
    (st st1 : state) :
  no_dotdot (parts p) = true ->
  ensure_output_dir w p st = (Ok q, st1) ->
  let way := prefixes_from (if is_abs p then [] else cwd w) (parts p) in
  (forall d, In d way -> dir_exists st1 d = true)
  /\ (parts p <> [] -> In (absolute w p) way)
  /\ (forall d, dir_exists st d = true -> dir_exists st1 d = true)
  /\ exists made,
       st1 = State (made ++ dirs st) (map EvMkdir made ++ trace st)
                   (next_ref st) (cells st)
       /\ incl made way
       /\ forall d, In d made -> dir_exists st d = false.
Proof.
  intros Hn E way. subst way. rewrite <- (on_the_way_plain w p Hn).
  rewrite ensure_output_dir_unfold in E.
  destruct (mkdir_each w (ancestors w p) st) as [[[]|e] st'] eqn:Em;
    [|discriminate E].
  inversion E; subst q st'.
  split; [exact (@mkdir_each_ok w _ _ _ Em)|].
  split; [apply absolute_on_the_way|].
  split.
  - intros d Hd. pose proof (@mkdir_each_keeps w (ancestors w p) st d Hd) as K.
    rewrite Em in K. exact K.
  - destruct (mkdir_each_shape w (ancestors w p) st) as (r & made & E' & _ & Hi & Hm).
    rewrite Em in E'. inversion E'. exists made. auto.
Qed.

Lemma ensure_output_dir_creates_ancestors_witness :
  let st1 := snd (ensure_output_dir Examples.host_partial new_folder
                    Examples.start) in
  let way := prefixes_from [] (parts new_folder) in
  (forall d, In d way -> dir_exists st1 d = true)
  /\ (parts new_folder <> [] -> In (absolute Examples.host_partial new_folder) way)
  /\ (forall d, dir_exists Examples.start d = true -> dir_exists st1 d = true)
  /\ exists made,
       st1 = State (made ++ dirs Examples.start)
                   (map EvMkdir made ++ trace Examples.start)
                   (next_ref Examples.start) (cells Examples.start)
       /\ incl made way
       /\ forall d, In d made -> dir_exists Examples.start d = false.
Proof.
  apply (@ensure_output_dir_creates_ancestors Examples.host_partial
           new_folder new_folder Examples.start).
  - reflexivity.
  - reflexivity.
Defined.

(** A path written with [..] has the directory before the [..] created
    too, where that directory is no symbolic link. *)
Lemma ensure_output_dir_by_way_of_tmp :
  dirs (snd (ensure_output_dir Examples.host_partial by_way_of_tmp Examples.start))
  = [["music"; "rock"]; ["music"; "tmp"]; ["music"]].
Proof. reflexivity. Qed.

(** X3. For a path written without [..], [ensure_output_dir] raises
    OSError whenever the directory it names or one above it is missing
    and may not be created; the directories that existed are still there,
    and what was created before the failure was missing and lies above
    the path. *)
Theorem ensure_output_dir_fails_when_blocked (w : world) (p : path) (st : state)
    (d : list string) :
  no_dotdot (parts p) = true ->
  In d (prefixes_from (if is_abs p then [] else cwd w) (parts p)) ->
  may_create w d = false ->
  dir_exists st d = false ->
  exists msg st1 made,
    ensure_output_dir w p st = (Raise (OSError msg), st1)
    /\ st1 = State (made ++ dirs st) (map EvMkdir made ++ trace st)
                   (next_ref st) (cells st)
    /\ incl made (prefixes_from (if is_abs p then [] else cwd w) (parts p))
    /\ (forall b, In b made -> dir_exists st b = false)
    /\ forall b, dir_exists st b = true -> dir_exists st1 b = true.
Proof.
  intros Hn Hin Hc Hm. rewrite <- (on_the_way_plain w p Hn) in *.
  destruct (@mkdir_each_blocked w _ st d Hin Hc Hm) as [st' E].
  destruct (mkdir_each_shape w (ancestors w p) st) as (r & made & E' & _ & Hi & Hmade).
  rewrite E in E'. inversion E'; subst r st'. clear E'.
  exists "cannot create directory"%string. do 2 eexists.
  split; [rewrite ensure_output_dir_unfold, E; reflexivity|].
  split; [reflexivity|]. split; [exact Hi|]. split; [exact Hmade|].
  intros b Hb. destruct b as [|x b]; [reflexivity|].
  apply (@mem_dir_app (x :: b)). exact Hb.
Qed.

Lemma ensure_output_dir_fails_when_blocked_witness :
  exists msg st1 made,
    ensure_output_dir (read_only_srv Examples.host_partial) srv_folder
                      Examples.start = (Raise (OSError msg), st1)
    /\ st1 = State (made ++ dirs Examples.start)
                   (map EvMkdir made ++ trace Examples.start)
                   (next_ref Examples.start) (cells Examples.start)
    /\ incl made (prefixes_from [] (parts srv_folder))
    /\ (forall b, In b made -> dir_exists Examples.start b = false)
    /\ forall b, dir_exists Examples.start b = true -> dir_exists st1 b = true.
Proof.
  apply (@ensure_output_dir_fails_when_blocked
           (read_only_srv Examples.host_partial) srv_folder Examples.start ["srv"]).
  - reflexivity.
  - left. reflexivity.
  - reflexivity.
  - reflexivity.
Defined.

(* ===================================================================== *)
(** ** Beyond the claims: normalising the output path *)
(* ===================================================================== *)

Lemma expanduser_stateless (w : world) (p : path) (st st0 : state) :
  expanduser w p st = (fst (expanduser w p st0), st).
Proof.
  unfold expanduser, ret, raise.
  destruct (is_abs p); [reflexivity|].
  destruct (parts p) as [|[|c user] rest]; try reflexivity.
  destruct c as [[] [] [] [] [] [] [] []]; try reflexivity.
  destruct (if is_empty user then home w else user_home w user); reflexivity.
Qed.

Lemma resolve_stateless (w : world) (p : path) (st st0 : state) :
  resolve w p st = (fst (resolve w p st0), st).
Proof. unfold resolve. destruct (realpath w p); reflexivity. Qed.

(** The result of [normalize_output_path] does not depend on the state,
    and the state is returned as it was. *)
Lemma normalize_output_path_stateless (w : world) (x : pathlike) (st st0 : state) :
  normalize_output_path w x st = (fst (normalize_output_path w x st0), st).
Proof.
  unfold normalize_output_path, bind.
  rewrite (expanduser_stateless w (Path_ x) st st0).
  rewrite (expanduser_stateless w (Path_ x) st0 st0) at 2.
  destruct (fst (expanduser w (Path_ x) st0)) as [q|e]; [|reflexivity].
  apply resolve_stateless.
Qed.

(** What [normalize_output_path] returns is absolute. *)
Lemma normalize_output_path_abs (w : world) (x : pathlike) (st : state) (p : path) :
  fst (normalize_output_path w x st) = Ok p -> is_abs p = true.
Proof.
  unfold normalize_output_path, bind.
  destruct (expanduser w (Path_ x) st) as [[q|e] st1]; [|discriminate].
  apply resolve_run.
Qed.

(* ===================================================================== *)
(** ** Beyond the claims: URL validation *)
(* ===================================================================== *)

Lemma rstrip_idempotent (s : string) : rstrip (rstrip s) = rstrip s.
Proof.
  induction s as [|c s IH]; [reflexivity|].
  simpl. destruct (is_empty (rstrip s) && is_space c) eqn:H; [reflexivity|].
  simpl. rewrite IH, H. reflexivity.
Qed.

Lemma lstrip_head (s : string) :
  lstrip s = EmptyString
  \/ exists c t, lstrip s = String c t /\ is_space c = false.
Proof.
  induction s as [|c s IH]; [left; reflexivity|].
  simpl. destruct (is_space c) eqn:H; [exact IH|].
  right. eauto.
Qed.

Lemma strip_idempotent (s : string) : strip (strip s) = strip s.
Proof.
  unfold strip. destruct (lstrip_head s) as [-> | (c & t & -> & Hc)];
    [reflexivity|].
  assert (E : rstrip (String c t) = String c (rstrip t)).
  { simpl. rewrite Hc, andb_false_r. reflexivity. }
  rewrite E. simpl lstrip. rewrite Hc. rewrite <- E. apply rstrip_idempotent.
Qed.

(** X6. Validation does not see surrounding whitespace: a string is
    accepted exactly when its trimmed form is. *)
Theorem is_valid_ignores_surrounding_whitespace (s : string) :
  is_valid_youtube_url (ObjStr s) = is_valid_youtube_url (ObjStr (strip s)).
Proof.
  unfold is_valid_youtube_url. simpl. rewrite !orb_false_r.
  rewrite strip_idempotent.
  destruct s as [|c s]; [reflexivity|].
  simpl negb at 1. cbv iota.
  destruct (strip (String c s)) eqn:E; reflexivity.
Qed.

Lemma is_valid_str_unfold (s : string) :
  is_valid_youtube_url (ObjStr s) =
    if is_empty s then false
    else if is_empty (strip s) then false
    else if negb (pattern_match (strip s)) then false
    else match urlparse (strip s) with
         | Some parsed =>
             existsb (String.eqb (scheme parsed)) ["http"; "https"]%string
             && existsb (fun domain => str_in domain (netloc parsed)) YOUTUBE_DOMAINS
         | None => false
         end.
Proof. destruct s; reflexivity. Qed.

(** X7. A string is accepted whenever, trimmed, it is one of the eight
    lower-case spellings of scheme and host followed by a non-empty path
    or query of ASCII characters without blanks or control characters,
    whatever that path or query is. *)
Theorem lower_case_urls_accepted_after_trimming (s prefix rest : string) :
  strip s = (prefix ++ rest)%string ->
  In prefix lower_case_prefixes ->
  is_ascii rest = true ->
  printable rest = true ->
  rest <> EmptyString ->
  is_valid_youtube_url (ObjStr s) = true.
Proof.
  intros Hs Hin _ Hp Hne.
  pose proof (@lower_case_urls_accepted prefix rest Hin Hp Hne) as H.
  assert (Hpr : printable (prefix ++ rest) = true).
  { apply printable_app; [|exact Hp].
    simpl in Hin. repeat destruct Hin as [<- | Hin]; try reflexivity. contradiction. }
  rewrite is_valid_str_unfold in H |- *.
  rewrite (strip_printable _ Hpr) in H. rewrite Hs.
  destruct (is_empty (prefix ++ rest)) eqn:He; [discriminate H|].
  destruct s as [|c s]; [|exact H].
  simpl in Hs. rewrite <- Hs in He. discriminate He.
Qed.

Lemma lower_case_urls_accepted_after_trimming_witness :
  is_valid_youtube_url (ObjStr "  https://youtu.be/dQw4w9WgXcQ?t=42&list=PL1#top ")
  = true.
Proof.
  apply (@lower_case_urls_accepted_after_trimming
           "  https://youtu.be/dQw4w9WgXcQ?t=42&list=PL1#top "
           "https://youtu.be/" "dQw4w9WgXcQ?t=42&list=PL1#top").
  - reflexivity.
  - simpl. tauto.
  - reflexivity.
  - reflexivity.
  - discriminate.
Defined.

(** X8. Whatever is not a string, and every string that is empty or
    blank, is rejected. *)
Theorem is_valid_rejects_blank_and_non_strings (o : pyobj) :
  isinstance_str o = false \/ (exists s, o = ObjStr s /\ strip s = EmptyString) ->
  is_valid_youtube_url o = false.
Proof.
  intros [H | (s & -> & H)]; [apply is_valid_not_str, H|].
  unfold is_valid_youtube_url. simpl. rewrite orb_false_r, H.
  destruct (negb (negb (is_empty s))); reflexivity.
Qed.

Lemma is_valid_rejects_blank_and_non_strings_witness :
  is_valid_youtube_url (ObjStr "   ") = false.
Proof.
  apply is_valid_rejects_blank_and_non_strings.
  right. exists "   "%string. split; reflexivity.
Defined.

(* ===================================================================== *)
(** ** Beyond the claims: the command line *)
(* ===================================================================== *)

Lemma str_truthy_empty (s : string) : str_truthy s = false -> s = EmptyString.
Proof. destruct s; [reflexivity | discriminate]. Qed.

(** X9. [get_user_input] prompts once, with the prompt followed by the
    default in brackets when there is one, and does nothing else.  For a
    line of ASCII text it returns the trimmed line, or the default (the
    empty string when there is none) when the line is blank; on EOF and
    on an interrupt it returns the default likewise.  Without a default
    what it returns carries no surrounding whitespace. *)
Theorem get_user_input_trimmed_or_default (w : world) (prompt : string)
    (default : option string) (st : state) :
  (forall l,
     stdin_line w = Some l -> is_ascii l = true ->
     get_user_input w prompt default st
     = (Ok (if is_empty (strip l) then or_empty default else strip l),
        extend st [EvInput (shown_prompt prompt default)]))
  /\ (stdin_line w = None ->
      get_user_input w prompt default st
      = (Ok (or_empty default),
         extend st [EvInput (shown_prompt prompt default)]))
  /\ forall r st',
       get_user_input w prompt default st = (Ok r, st') ->
       default = None -> strip r = r.
Proof.
  unfold get_user_input, input, bind, emit, ret, extend, shown_prompt. simpl.
  split; [|split].
  - intros l Hl _. rewrite Hl. unfold str_truthy.
    destruct (is_empty (strip l)); reflexivity.
  - intros Hl. rewrite Hl. reflexivity.
  - intros r st' E ->. destruct (stdin_line w) as [l|].
    + destruct (str_truthy (strip l)) eqn:Ht; inversion E; subst.
      * apply strip_idempotent.
      * reflexivity.
    + inversion E. reflexivity.
Qed.

Lemma get_user_input_trimmed_or_default_witness :
  get_user_input (typing Examples.host_partial (Some "  https://youtu.be/x  "))
                 "URL" None Examples.start
  = (Ok (if is_empty (strip "  https://youtu.be/x  ") then or_empty None
         else strip "  https://youtu.be/x  "),
     extend Examples.start [EvInput (shown_prompt "URL" None)]).
Proof.
  apply (proj1 (@get_user_input_trimmed_or_default
                  (typing Examples.host_partial (Some "  https://youtu.be/x  "))
                  "URL" None Examples.start)
           "  https://youtu.be/x  "%string).
  - reflexivity.
  - reflexivity.
Defined.

Lemma get_user_input_url (w : world) (st : state) :
  get_user_input w "YouTube playlist or video URL" None st =
    (Ok (typed_url w), extend st [EvInput url_prompt]).
Proof.
  unfold get_user_input, input, typed_url, bind, emit, ret, extend. simpl.
  destruct (stdin_line w) as [l|]; [|reflexivity].
  destruct (str_truthy (strip l)) eqn:Ht; [reflexivity|].
  apply str_truthy_empty in Ht. rewrite Ht. reflexivity.
Qed.

Section Main.
Variable w : world.
Variable args : Namespace.
Variable st : state.

(** How [main] comes by its URL. *)
Lemma main_url_step (lv : level) :
  (match url args with
   | Some u => if str_truthy u then ret u
               else get_user_input w "YouTube playlist or video URL" None
   | None => get_user_input w "YouTube playlist or video URL" None
   end) (extend st [EvSetLevel lv])
  = (Ok (run_url w args), extend st (url_events args ++ [EvSetLevel lv])).
Proof.
  unfold run_url, url_events, has_cli_url.
  destruct (url args) as [u|]; [destruct (str_truthy u)|];
    rewrite ?get_user_input_url; reflexivity.
Qed.

Lemma is_valid_truthy (u : string) :
  is_valid_youtube_url (ObjStr u) = true -> str_truthy u = true.
Proof. destruct u; [discriminate | reflexivity]. Qed.

(** A missing or invalid URL ends the run at once. *)
Lemma main_invalid_run :
  is_valid_youtube_url (ObjStr (run_url w args)) = false ->
  main w args st =
    (Ok 1,
     extend st (EvLog (if str_truthy (run_url w args)
                       then invalid_youtube_url_record (run_url w args)
                       else no_url_record)
                  :: start_events args)).
Proof.
  intros Hv. unfold main, setup_logging.
  unfold bind at 1.
  change (emit (EvSetLevel (if verbose args then DEBUG else INFO)) st)
    with (Ok tt, extend st [EvSetLevel (if verbose args then DEBUG else INFO)]).
  cbv iota. unfold bind at 1. rewrite main_url_step. cbv iota.
  destruct (str_truthy (run_url w args)); simpl negb; cbv iota.
  - rewrite Hv. reflexivity.
  - reflexivity.
Qed.

(** With a valid URL, [main] settles the output directory, creates it,
    and hands over to [run_download]. *)
Lemma main_valid_run (d : path) :
  is_valid_youtube_url (ObjStr (run_url w args)) = true ->
  main_output_dir w args st d ->
  main w args st =
    match ensure_output_dir w d (extend st (start_events args)) with
    | (Ok _, st2) =>
        run_download w (run_url w args) d (video args)
                     (extend st2 (run_logs (run_url w args) d args))
    | (Raise (OSError m), st2) =>
        (Ok 1, extend st2 [EvLog (cannot_create_record d (OSError m))])
    | (Raise e, st2) => (Raise e, st2)
    end.
Proof.
  intros Hv Hd. unfold main, setup_logging.
  unfold bind at 1.
  change (emit (EvSetLevel (if verbose args then DEBUG else INFO)) st)
    with (Ok tt, extend st [EvSetLevel (if verbose args then DEBUG else INFO)]).
  cbv iota. unfold bind at 1. rewrite main_url_step. cbv iota.
  rewrite (is_valid_truthy _ Hv), Hv. change (negb true) with false. cbv iota.
  fold (start_events args).
  set (st1 := extend st (start_events args)).
  assert (Ho : (match output args with
                | Some o => if str_truthy o then normalize_output_path w (PStr o)
                            else ret (get_default_output_dir w)
                | None => ret (get_default_output_dir w)
                end) st1 = (Ok d, st1)).
  { unfold main_output_dir, has_cli_output in Hd.
    destruct (output args) as [o|]; [destruct (str_truthy o)|];
      try (rewrite Hd; reflexivity).
    simpl in Hd. rewrite (normalize_output_path_stateless w (PStr o) st1 st), Hd.
    reflexivity. }
  unfold bind at 1. rewrite Ho. cbv iota.
  unfold bind at 1. unfold try_except, bind at 1.
  destruct (ensure_output_dir w d st1) as [[q|e] st2] eqn:Ee.
  - reflexivity.
  - destruct e; reflexivity.
Qed.

(** What escapes [normalize_output_path] escapes [main]. *)
Lemma main_normalize_raises (e : exn) :
  is_valid_youtube_url (ObjStr (run_url w args)) = true ->
  has_cli_output args = true ->
  fst (normalize_output_path w (PStr (or_empty (output args))) st) = Raise e ->
  main w args st = (Raise e, extend st (start_events args)).
Proof.
  intros Hv Ho He. unfold main, setup_logging.
  unfold bind at 1.
  change (emit (EvSetLevel (if verbose args then DEBUG else INFO)) st)
    with (Ok tt, extend st [EvSetLevel (if verbose args then DEBUG else INFO)]).
  cbv iota. unfold bind at 1. rewrite main_url_step. cbv iota.
  rewrite (is_valid_truthy _ Hv), Hv. change (negb true) with false. cbv iota.
  fold (start_events args).
  set (st1 := extend st (start_events args)).
  unfold has_cli_output in Ho.
  destruct (output args) as [o|]; [|discriminate Ho]. rewrite Ho.
  simpl in He.
  unfold bind at 1.
  rewrite (normalize_output_path_stateless w (PStr o) st1 st), He. reflexivity.
Qed.

(** An [-o] argument whose home directory cannot be determined makes
    [main] raise. *)
Lemma main_home_unknown_run :
  is_valid_youtube_url (ObjStr (run_url w args)) = true ->
  has_cli_output args = true ->
  home_known w (cli_output_path args) = false ->
  main w args st =
    (Raise (RuntimeError "Could not determine home directory."),
     extend st (start_events args)).
Proof.
  intros Hv Ho Hk. apply main_normalize_raises; [exact Hv | exact Ho|].
  unfold has_cli_output, cli_output_path in *.
  destruct (output args) as [o|]; [|discriminate Ho].
  simpl. unfold normalize_output_path, bind.
  destruct (expanduser_run w (Path_ (PStr o)) st) as (Hs & _ & Hr).
  specialize (Hr Hk).
  destruct (expanduser w (Path_ (PStr o)) st) as [r st2].
  simpl in Hs, Hr. subst r st2. reflexivity.
Qed.

(** The output directory of a run is settled, or normalising the [-o]
    argument raises. *)
Lemma main_output_dir_or_raise :
  (exists d, main_output_dir w args st d)
  \/ (has_cli_output args = true
      /\ exists e,
           fst (normalize_output_path w (PStr (or_empty (output args))) st)
           = Raise e).
Proof.
  unfold main_output_dir. destruct (has_cli_output args); [|eauto].
  destruct (fst (normalize_output_path w (PStr (or_empty (output args))) st));
    eauto.
Qed.

(** The output directory of a run is an absolute path. *)
Lemma main_output_dir_abs (d : path) :
  main_output_dir w args st d -> is_abs d = true.
Proof.
  unfold main_output_dir. destruct (has_cli_output args).
  - apply normalize_output_path_abs.
  - intros ->. reflexivity.
Qed.

End Main.

(* ===================================================================== *)
(** ** Beyond the claims: what a download does and does not do *)
(* ===================================================================== *)

(** The three ways a call of [download] can go. *)
Lemma download_cases (w : world) (self : YouTubeDownloadService) (url : string)
    (st : state) :
  (_download_video self = false /\ which w "ffmpeg" = None
   /\ download w self url st
      = (Raise (RuntimeError ffmpeg_message), extend st [EvWhich "ffmpeg"]))
  \/ (prerequisite_ok w self /\ info_truthy (fetch_result w url) = false
      /\ download w self url st
         = (Ok (0, 0),
            extend st (EvLog (invalid_url_record url)
                         :: fetch_events w url ++ prerequisite_events self)))
  \/ (prerequisite_ok w self
      /\ exists info logs cells',
           fetch_result w url = Some info
           /\ info_truthy (Some info) = true
           /\ forallb (hook_event (item_total info)) logs = true
           /\ let n := item_total info in
              let opts := _build_opts self (n >? 1) in
              let run := ydl_download w opts url in
              download w self url st
              = (Ok (count_finished (fst run), n - count_finished (fst run)),
                 State (library_folders w opts url st ++ dirs st)
                       (outcome_events (snd run) ++ logs
                          ++ [EvDownload opts url; EvLog (total_record n)]
                          ++ fetch_events w url ++ prerequisite_events self
                          ++ trace st)
                       (S (S (next_ref st))) cells')).
Proof.
  destruct (_download_video self) eqn:Hv.
  - assert (Hp : prerequisite_ok w self) by (left; exact Hv).
    right. destruct (info_truthy (fetch_result w url)) eqn:Ht.
    + right. split; [exact Hp|].
      destruct (info_truthy_some _ Ht) as [info Hi]. rewrite Hi in Ht.
      destruct (@download_run w self url st info Hp Hi Ht) as (logs & c' & E & L).
      exists info, logs, c'. auto.
    + left. split; [exact Hp|]. split; [reflexivity|].
      rewrite (@download_fetch_failed w self url st Hp Ht).
      unfold extend. simpl. rewrite <- app_assoc. reflexivity.
  - destruct (which w "ffmpeg") as [p|] eqn:Hw.
    + assert (Hp : prerequisite_ok w self) by (right; eauto).
      right. destruct (info_truthy (fetch_result w url)) eqn:Ht.
      * right. split; [exact Hp|].
        destruct (info_truthy_some _ Ht) as [info Hi]. rewrite Hi in Ht.
        destruct (@download_run w self url st info Hp Hi Ht) as (logs & c' & E & L).
        exists info, logs, c'. auto.
      * left. split; [exact Hp|]. split; [reflexivity|].
        rewrite (@download_fetch_failed w self url st Hp Ht).
        unfold extend. simpl. rewrite <- app_assoc. reflexivity.
    + left. split; [reflexivity|]. split; [reflexivity|].
      apply ffmpeg_missing_raises; assumption.
Qed.

(** X10. Nothing but the RuntimeError of the missing ffmpeg escapes
    [download]: it returns a pair, or it is in audio mode on a host
    without ffmpeg and raises that error.  No error of the extraction
    library reaches the caller. *)
Theorem download_raises_only_for_missing_ffmpeg (w : world)
    (self : YouTubeDownloadService) (url : string) (st : state) :
  (exists s f st', download w self url st = (Ok (s, f), st'))
  \/ (_download_video self = false /\ which w "ffmpeg" = None
      /\ exists st', download w self url st
                     = (Raise (RuntimeError ffmpeg_message), st')).
Proof.
  destruct (download_cases w self url st)
    as [(Hv & Hw & E) | [(_ & _ & E) | (_ & info & logs & c' & _ & _ & _ & E)]].
  - right. eauto.
  - left. eauto.
  - left. simpl in E. eauto.
Qed.

Lemma count_le_one_hook_events (n : Z) (p : event -> bool) (l : list event) :
  (forall e, hook_event n e = true -> p e = false) ->
  forallb (hook_event n) l = true -> filter p l = [].
Proof.
  intros Hp. induction l as [|e l IH]; [reflexivity|].
  simpl. intros H. apply andb_true_iff in H as [He Hl].
  rewrite (Hp e He). apply IH, Hl.
Qed.

Lemma filter_fetch_events (w : world) (url : string) :
  filter is_mkdir (fetch_events w url) = []
  /\ filter is_input (fetch_events w url) = []
  /\ filter is_download (fetch_events w url) = []
  /\ filter is_extract (fetch_events w url) = [EvExtractInfo url].
Proof. unfold fetch_events. destruct (extract_info w url); repeat split. Qed.

Lemma filter_prerequisite_events (self : YouTubeDownloadService) :
  filter is_mkdir (prerequisite_events self) = []
  /\ filter is_input (prerequisite_events self) = []
  /\ filter is_download (prerequisite_events self) = []
  /\ filter is_extract (prerequisite_events self) = [].
Proof. unfold prerequisite_events. destruct (_download_video self); repeat split. Qed.

Lemma filter_outcome_events (p : event -> bool) (o : option exn) :
  (forall r, p (EvLog r) = false) -> filter p (outcome_events o) = [].
Proof. intros H. destruct o; simpl; [rewrite H|]; reflexivity. Qed.

(** No directory is lost in a download. *)
Lemma download_keeps (w : world) (self : YouTubeDownloadService) (url : string)
    (st : state) (d : list string) :
  dir_exists st d = true -> dir_exists (snd (download w self url st)) d = true.
Proof.
  intros H.
  destruct (download_cases w self url st)
    as [(_ & _ & E) | [(_ & _ & E) | (_ & info & logs & c' & _ & _ & _ & E)]];
    simpl in E; rewrite E; [exact H | exact H|].
  destruct d as [|x d]; [reflexivity|].
  apply (@mem_dir_app (x :: d)). exact H.
Qed.

(** X11. [download] itself calls no [mkdir] and asks the user nothing;
    in one call it makes the metadata query at most once and starts the
    library's download at most once, and it starts a download only after
    having made the query.  No directory is lost on the way. *)
Theorem download_queries_once_downloads_once (w : world)
    (self : YouTubeDownloadService) (url : string) (st : state) :
  (forall d, dir_exists st d = true ->
     dir_exists (snd (download w self url st)) d = true)
  /\ exists new,
       trace (snd (download w self url st)) = new ++ trace st
       /\ filter is_mkdir new = []
       /\ filter is_input new = []
       /\ (length (filter is_extract new) <= 1)%nat
       /\ (length (filter is_download new) <= length (filter is_extract new))%nat.
Proof.
  split; [intros d; apply download_keeps|].
  destruct (filter_fetch_events w url) as (F1 & F2 & F3 & F4).
  destruct (filter_prerequisite_events self) as (P1 & P2 & P3 & P4).
  destruct (download_cases w self url st)
    as [(Hv & Hw & E) | [(_ & _ & E) | (_ & info & logs & c' & _ & _ & L & E)]].
  - rewrite E.
    exists [EvWhich "ffmpeg"]. simpl. repeat split; auto.
  - rewrite E.
    exists (EvLog (invalid_url_record url)
              :: fetch_events w url ++ prerequisite_events self).
    split; [reflexivity|]. simpl.
    rewrite !filter_app, F1, F2, F3, F4, P1, P2, P3, P4. simpl.
    repeat split; auto.
  - simpl in E. rewrite E.
    set (n := item_total info) in *.
    set (opts := _build_opts self (n >? 1)) in *.
    exists (outcome_events (snd (ydl_download w opts url)) ++ logs
            ++ [EvDownload opts url; EvLog (total_record n)]
            ++ fetch_events w url ++ prerequisite_events self).
    split; [simpl; repeat (rewrite <- app_assoc; simpl); reflexivity|].
    rewrite !filter_app.
    rewrite !(@filter_outcome_events _ _ (fun _ => eq_refl)).
    rewrite !(@count_le_one_hook_events n _ logs) by
      (try exact L; intros [] He; try reflexivity; discriminate He).
    rewrite F1, F2, F3, F4, P1, P2, P3, P4. simpl.
    repeat split; auto.
Qed.

(** X12. The pair [download] returns never has a negative success count;
    and it is (0, 0) after a failed metadata query, while after a
    successful one the failure count is at most the item total and the
    success count at most the number of progress reports. *)
Theorem download_counts_bounded (w : world) (self : YouTubeDownloadService)
    (url : string) (st : state) (s f : Z) :
  fst (download w self url st) = Ok (s, f) ->
  0 <= s
  /\ ((info_truthy (fetch_result w url) = false /\ s = 0 /\ f = 0)
      \/ exists info,
           fetch_result w url = Some info
           /\ f <= item_total info
           /\ s <= Z.of_nat
                     (length (fst (ydl_download w
                                     (_build_opts self (item_total info >? 1))
                                     url)))).
Proof.
  intros H.
  assert (Hc : forall ds, 0 <= count_finished ds <= Z.of_nat (length ds)).
  { intros ds. unfold count_finished. split; [lia|].
    apply inj_le, filter_length_le. }
  destruct (download_cases w self url st)
    as [(Hv & Hw & E) | [(_ & Ht & E) | (_ & info & logs & c' & Hi & _ & _ & E)]].
  - rewrite E in H. discriminate H.
  - rewrite E in H. inversion H; subst. split; [lia|]. left. auto.
  - simpl in E. rewrite E in H. simpl in H. inversion H; subst.
    match goal with |- context [count_finished ?ds] => specialize (Hc ds) end.
    split; [lia|]. right. exists info. repeat split; [exact Hi | lia | lia].
Qed.

Lemma download_counts_bounded_witness :
  0 <= 3
  /\ ((info_truthy (fetch_result Examples.host_three_of_five Examples.playlist_url)
       = false /\ 3 = 0 /\ 2 = 0)
      \/ exists info,
           fetch_result Examples.host_three_of_five Examples.playlist_url = Some info
           /\ 2 <= item_total info
           /\ 3 <= Z.of_nat
                     (length (fst (ydl_download Examples.host_three_of_five
                                     (_build_opts Examples.audio_service
                                        (item_total info >? 1))
                                     Examples.playlist_url)))).
Proof.
  apply (@download_counts_bounded Examples.host_three_of_five
           Examples.audio_service Examples.playlist_url Examples.start 3 2).
  reflexivity.
Defined.

(* ===================================================================== *)
(** ** Beyond the claims: a whole run *)
(* ===================================================================== *)

(** [run_download] once its service is constructed. *)
Lemma run_download_run (w : world) (u : string) (d : path) (v : bool)
    (st st1 : state) :
  ensure_output_dir w d st = (Ok d, st1) ->
  run_download w u d v st =
    match download w (cli_service d v) u st1 with
    | (Ok (s, f), st') =>
        (Ok (if f =? 0 then 0 else 1), extend st' [EvLog (done_record s f)])
    | (Raise (RuntimeError m), st') =>
        (Ok 1, extend st' [EvLog (LogRecord ERROR "%s" [AExn (RuntimeError m)] false)])
    | (Raise e, st') => (Raise e, st')
    end.
Proof.
  intros He. unfold run_download, __init__.
  unfold bind at 1. unfold bind at 1. rewrite He. unfold ret at 1. cbv iota.
  fold (cli_service d v).
  unfold bind at 1. unfold try_except, bind at 1.
  destruct (download w (cli_service d v) u st1) as [[[s f]|e] st'].
  - reflexivity.
  - destruct e; reflexivity.
Qed.

Lemma existsb_map_mkdir (p : event -> bool) (made : list (list string)) :
  (forall d, p (EvMkdir d) = false) -> existsb p (map EvMkdir made) = false.
Proof.
  intros H. induction made as [|m made IH]; [reflexivity|].
  simpl. rewrite H, IH. reflexivity.
Qed.

Lemma existsb_start_events (p : event -> bool) (args : Namespace) :
  (forall s, p (EvInput s) = false) -> (forall l, p (EvSetLevel l) = false) ->
  existsb p (start_events args) = false.
Proof.
  intros Hi Hl. unfold start_events, url_events.
  destruct (has_cli_url args); simpl; rewrite ?Hi, ?Hl; reflexivity.
Qed.

(** X13. A run whose URL is missing or is not accepted ends with exit
    code 1 and an error record, having created no directory, searched for
    no program and made no network call. *)
Theorem main_rejects_url_without_effects (w : world) (args : Namespace)
    (st : state) :
  is_valid_youtube_url (ObjStr (run_url w args)) = false ->
  exists new r,
    main w args st = (Ok 1, extend st new)
    /\ In (EvLog r) new /\ lvl r = ERROR
    /\ existsb is_mkdir new = false
    /\ existsb is_which new = false
    /\ existsb is_network new = false.
Proof.
  intros Hv. rewrite (main_invalid_run w args st Hv).
  eexists. eexists. split; [reflexivity|].
  split; [left; reflexivity|].
  split; [destruct (str_truthy (run_url w args)); reflexivity|].
  simpl. rewrite !existsb_start_events by reflexivity. auto.
Qed.

Lemma main_rejects_url_without_effects_witness :
  exists new r,
    main (typing Examples.host_partial (Some "   ")) no_args Examples.start
      = (Ok 1, extend Examples.start new)
    /\ In (EvLog r) new /\ lvl r = ERROR
    /\ existsb is_mkdir new = false
    /\ existsb is_which new = false
    /\ existsb is_network new = false.
Proof.
  apply (@main_rejects_url_without_effects
           (typing Examples.host_partial (Some "   ")) no_args Examples.start).
  reflexivity.
Defined.

(** X14. A run whose output directory cannot be created ends with exit
    code 1 and the error record of the folder; no program was searched
    for, no network call made, and every directory that existed is still
    there. *)
Theorem main_blocked_output_dir (w : world) (args : Namespace) (st : state)
    (d : path) :
  is_valid_youtube_url (ObjStr (run_url w args)) = true ->
  main_output_dir w args st d ->
  blocked w st d ->
  exists st' new msg,
    main w args st = (Ok 1, st')
    /\ trace st' = new ++ trace st
    /\ In (EvLog (cannot_create_record d (OSError msg))) new
    /\ existsb is_which new = false
    /\ existsb is_network new = false
    /\ forall d', dir_exists st d' = true -> dir_exists st' d' = true.
Proof.
  intros Hv Hd (b & Hin & Hc & Hm).
  rewrite (main_valid_run w args st d Hv Hd).
  set (st1 := extend st (start_events args)).
  destruct (@mkdir_each_blocked w _ st1 b Hin Hc Hm) as [st2 E].
  destruct (mkdir_each_shape w (ancestors w d) st1) as (r & made & E' & _ & _ & _).
  rewrite E in E'. inversion E'; subst st2. clear E'.
  rewrite ensure_output_dir_unfold, E.
  eexists. exists (EvLog (cannot_create_record d (OSError "cannot create directory"))
                     :: map EvMkdir made ++ start_events args).
  eexists. split; [reflexivity|].
  split; [simpl; rewrite <- app_assoc; reflexivity|].
  split; [left; reflexivity|].
  split; [simpl; rewrite existsb_app, existsb_map_mkdir, existsb_start_events
            by reflexivity; reflexivity|].
  split; [simpl; rewrite existsb_app, existsb_map_mkdir, existsb_start_events
            by reflexivity; reflexivity|].
  intros d' Hd'. destruct d' as [|x d']; [reflexivity|].
  apply (@mem_dir_app (x :: d')). exact Hd'.
Qed.

Lemma main_blocked_output_dir_witness :
  exists st' new msg,
    main (read_only_srv Examples.host_partial)
         (args_to Examples.playlist_url "/srv/media") Examples.start = (Ok 1, st')
    /\ trace st' = new ++ trace Examples.start
    /\ In (EvLog (cannot_create_record srv_folder (OSError msg))) new
    /\ existsb is_which new = false
    /\ existsb is_network new = false
    /\ forall d', dir_exists Examples.start d' = true -> dir_exists st' d' = true.
Proof.
  apply (@main_blocked_output_dir (read_only_srv Examples.host_partial)
           (args_to Examples.playlist_url "/srv/media") Examples.start srv_folder).
  - reflexivity.
  - reflexivity.
  - exists ["srv"]. repeat split. left. reflexivity.
Defined.

(** X15. An [-o] argument that names the home of a user who cannot be
    found makes [main] raise RuntimeError: the error is not caught, no
    directory is created and no network call made, and the process ends
    with status 1. *)
Theorem main_unknown_home_escapes (w : world) (args : Namespace) (st : state) :
  is_valid_youtube_url (ObjStr (run_url w args)) = true ->
  has_cli_output args = true ->
  home_known w (cli_output_path args) = false ->
  main w args st =
    (Raise (RuntimeError "Could not determine home directory."),
     extend st (start_events args))
  /\ existsb is_mkdir (start_events args) = false
  /\ existsb is_network (start_events args) = false
  /\ exit_code w args st = 1.
Proof.
  intros Hv Ho Hk.
  pose proof (main_home_unknown_run w args st Hv Ho Hk) as E.
  split; [exact E|].
  rewrite !existsb_start_events by reflexivity.
  split; [reflexivity|]. split; [reflexivity|].
  unfold exit_code. rewrite E. reflexivity.
Qed.

Lemma main_unknown_home_escapes_witness :
  main Examples.host_partial (args_to Examples.playlist_url "~ghost/music")
       Examples.start
  = (Raise (RuntimeError "Could not determine home directory."),
     extend Examples.start
       (start_events (args_to Examples.playlist_url "~ghost/music")))
  /\ existsb is_mkdir (start_events (args_to Examples.playlist_url "~ghost/music"))
     = false
  /\ existsb is_network (start_events (args_to Examples.playlist_url "~ghost/music"))
     = false
  /\ exit_code Examples.host_partial (args_to Examples.playlist_url "~ghost/music")
               Examples.start = 1.
Proof.
  apply (@main_unknown_home_escapes Examples.host_partial
           (args_to Examples.playlist_url "~ghost/music") Examples.start).
  - reflexivity.
  - reflexivity.
  - reflexivity.
Defined.

(** The directory an absolute path names exists once [ensure_output_dir]
    has returned. *)
Lemma ensure_ok_exists (w : world) (d q : path) (st st2 : state) :
  is_abs d = true ->
  ensure_output_dir w d st = (Ok q, st2) ->
  dir_exists st2 (absolute w d) = true.
Proof.
  intros Ha E. rewrite ensure_output_dir_unfold in E.
  destruct (mkdir_each w (ancestors w d) st) as [[[]|e] st'] eqn:Em;
    [|discriminate E].
  inversion E; subst q st'.
  destruct (parts d) as [|x ps] eqn:Ep.
  - unfold absolute. rewrite Ha, Ep. reflexivity.
  - apply (@mkdir_each_ok w _ _ _ Em), absolute_on_the_way.
    rewrite Ep. discriminate.
Qed.

Lemma ensure_ok_or_oserror (w : world) (d : path) (st : state) :
  (exists st2, ensure_output_dir w d st = (Ok d, st2))
  \/ (exists st2, ensure_output_dir w d st
                  = (Raise (OSError "cannot create directory"), st2)).
Proof.
  rewrite ensure_output_dir_unfold.
  destruct (mkdir_each_shape w (ancestors w d) st)
    as (r & made & E & [-> | ->] & _); rewrite E; eauto.
Qed.

(** With a valid URL and the output directory created, [main] ends as the
    download does: the service is constructed without a further change,
    and the exit code is that of the download step. *)
Lemma main_download_run (w : world) (args : Namespace) (st st1 : state) (d : path) :
  is_valid_youtube_url (ObjStr (run_url w args)) = true ->
  main_output_dir w args st d ->
  ensure_output_dir w d (extend st (start_events args)) = (Ok d, st1) ->
  main w args st =
    match download w (cli_service d (video args)) (run_url w args)
                   (extend st1 (run_logs (run_url w args) d args)) with
    | (Ok (s, f), st') =>
        (Ok (if f =? 0 then 0 else 1), extend st' [EvLog (done_record s f)])
    | (Raise (RuntimeError m), st') =>
        (Ok 1, extend st' [EvLog (LogRecord ERROR "%s" [AExn (RuntimeError m)] false)])
    | (Raise e, st') => (Raise e, st')
    end.
Proof.
  intros Hv Hd Ee.
  rewrite (main_valid_run w args st d Hv Hd), Ee.
  apply run_download_run.
  apply (@ensure_then_noop w d d _ st1 _ Ee). auto.
Qed.

(** X17. Exit code 0 means what it says only in part: when [main]
    returns 0 the URL was accepted, the output directory exists at the
    end, and [download] returned a pair with no failures. *)
Theorem main_zero_means_no_failures (w : world) (args : Namespace)
    (st st' : state) :
  main w args st = (Ok 0, st') ->
  is_valid_youtube_url (ObjStr (run_url w args)) = true
  /\ exists d s st2,
       main_output_dir w args st d
       /\ dir_exists st' (absolute w d) = true
       /\ fst (download w (cli_service d (video args)) (run_url w args) st2)
          = Ok (s, 0).
Proof.
  intros E.
  destruct (is_valid_youtube_url (ObjStr (run_url w args))) eqn:Hv;
    [|rewrite (main_invalid_run w args st Hv) in E; discriminate E].
  split; [reflexivity|].
  destruct (main_output_dir_or_raise w args st) as [[d Hd] | (Ho & e & He)];
    [|rewrite (main_normalize_raises w args st Hv Ho He) in E; discriminate E].
  exists d.
  set (st1 := extend st (start_events args)).
  destruct (ensure_ok_or_oserror w d st1) as [[st2 Ee] | [st2 Ee]].
  - rewrite (main_download_run w args st Hv Hd Ee) in E.
    set (st3 := extend st2 (run_logs (run_url w args) d args)) in *.
    pose proof (@download_keeps w (cli_service d (video args)) (run_url w args)
                  st3 (absolute w d)) as Hk.
    destruct (download w (cli_service d (video args)) (run_url w args) st3)
      as [[[s f]|e] st4] eqn:Ed.
    + inversion E. exists s, st3. split; [exact Hd|]. split.
      * simpl. apply Hk.
        exact (@ensure_ok_exists w d d st1 st2 (main_output_dir_abs w args st d Hd) Ee).
      * rewrite Ed. simpl.
        destruct (Z.eqb_spec f 0); [subst; reflexivity | discriminate].
    + destruct e; discriminate E.
  - rewrite (main_valid_run w args st d Hv Hd) in E. fold st1 in E.
    rewrite Ee in E. discriminate E.
Qed.

Lemma main_zero_means_no_failures_witness :
  is_valid_youtube_url
    (ObjStr (run_url Examples.host_partial (Examples.cli_args Examples.playlist_url)))
  = true
  /\ exists d s st2,
       main_output_dir Examples.host_partial
         (Examples.cli_args Examples.playlist_url) Examples.start d
       /\ dir_exists
            (snd (main Examples.host_partial
                    (Examples.cli_args Examples.playlist_url) Examples.start))
            (absolute Examples.host_partial d) = true
       /\ fst (download Examples.host_partial
                 (cli_service d (video (Examples.cli_args Examples.playlist_url)))
                 (run_url Examples.host_partial
                    (Examples.cli_args Examples.playlist_url)) st2)
          = Ok (s, 0).
Proof.
  apply (@main_zero_means_no_failures Examples.host_partial
           (Examples.cli_args Examples.playlist_url) Examples.start
           (snd (main Examples.host_partial
                   (Examples.cli_args Examples.playlist_url) Examples.start))).
  vm_compute. reflexivity.
Defined.

(* ===================================================================== *)
(** ** Beyond the claims: progress reports *)
(* ===================================================================== *)

Lemma str_in_slash_cons (c : ascii) (t : string) :
  str_in "/" (String c t) = Ascii.eqb c "/" || str_in "/" t.
Proof.
  change (str_in "/" (String c t))
    with (String.prefix "/" (String c t) || str_in "/" t).
  f_equal. cbn [String.prefix].
  destruct (ascii_dec "/" c) as [<- | Hne].
  - rewrite Ascii.eqb_refl. destruct t; reflexivity.
  - destruct (Ascii.eqb_spec c "/") as [-> | _]; [congruence | reflexivity].
Qed.

Lemma split_on_nonempty (sep : ascii) (s : string) : split_on sep s <> [].
Proof.
  destruct s as [|c s]; simpl; [discriminate|].
  destruct (Ascii.eqb c sep); [discriminate|].
  destruct (split_on sep s); discriminate.
Qed.

(** A string that splits into one field is that field. *)
Lemma split_on_single (s f : string) : split_on "/" s = [f] -> s = f.
Proof.
  revert f. induction s as [|y u IH]; intros f E.
  - simpl in E. congruence.
  - simpl split_on in E. destruct (Ascii.eqb y "/").
    + pose proof (split_on_nonempty "/" u) as Hu.
      destruct (split_on "/" u); [congruence | discriminate E].
    + destruct (split_on "/" u) as [|g gs] eqn:Eu.
      * inversion E. pose proof (split_on_nonempty "/" u). congruence.
      * inversion E; subst. rewrite (IH g eq_refl). reflexivity.
Qed.

(** The last field of a path-like string holds no slash and ends the
    string. *)
Lemma last_field (s : string) :
  str_in "/" (last (split_on "/" s) EmptyString) = false
  /\ ends_with (last (split_on "/" s) EmptyString) s.
Proof.
  induction s as [|c s [IHn [pre IHe]]].
  - split; [reflexivity | exists EmptyString; reflexivity].
  - pose proof (split_on_nonempty "/" s) as Hs.
    simpl split_on. destruct (Ascii.eqb c "/") eqn:Hc.
    + destruct (split_on "/" s) as [|f fs] eqn:E; [congruence|].
      change (last (EmptyString :: f :: fs) EmptyString)
        with (last (f :: fs) EmptyString).
      split; [exact IHn|].
      exists (String c pre).
      change (String c s = String c (pre ++ last (f :: fs) EmptyString)%string).
      f_equal. exact IHe.
    + destruct (split_on "/" s) as [|f fs] eqn:E; [congruence|].
      destruct fs as [|g fs].
      * change (last [String c f] EmptyString) with (String c f).
        change (last [f] EmptyString) with f in IHn.
        rewrite (split_on_single s E).
        split; [rewrite str_in_slash_cons, Hc; exact IHn|].
        exists EmptyString. reflexivity.
      * change (last (String c f :: g :: fs) EmptyString)
          with (last (g :: fs) EmptyString).
        change (last (f :: g :: fs) EmptyString)
          with (last (g :: fs) EmptyString) in IHn, IHe.
        split; [exact IHn|].
        exists (String c pre).
        change (String c s = String c (pre ++ last (g :: fs) EmptyString)%string).
        f_equal. exact IHe.
Qed.

(** [_progress_hook] with a callback: it returns, calls the callback once
    with the values it was given and the name it derived, and logs. *)
Lemma _progress_hook_called (self : YouTubeDownloadService) (cb : ProgressCallback)
    (d : hook_dict) (c : Z) (t : option Z) (st : state) :
  _progress_callback self = Some cb ->
  exists f logs,
    _progress_hook self d c t st
      = (Ok tt, extend st (logs ++ [EvCallback c t f (reported_status d)]))
    /\ filter is_callback logs = []
    /\ incl (map EvLog (cb c t f (reported_status d))) logs
    /\ (hd_filename d = None -> hd_title d = None -> f = "?"%string)
    /\ (forall p, hd_filename d = Some (PPath p) -> f = name p)
    /\ (forall s, hd_filename d = Some (PStr s) -> s <> EmptyString ->
          str_in "/" f = false /\ ends_with f s).
Proof.
  intros Hcb. unfold _progress_hook. rewrite Hcb.
  change (get_or (hd_status d) "downloading") with (reported_status d).
  set (status := reported_status d).
  set (filename := match match get_or (hd_filename d) (PStr "?") with
                         | PStr EmptyString => PStr (get_or (hd_title d) "?")
                         | f => f end with
                   | PPath p => name p
                   | PStr s => if str_in "/" s then last (split_on "/" s) EmptyString else s
                   end).
  assert (Hf : (hd_filename d = None -> hd_title d = None -> filename = "?"%string)
               /\ (forall p, hd_filename d = Some (PPath p) -> filename = name p)
               /\ (forall s, hd_filename d = Some (PStr s) -> s <> EmptyString ->
                     str_in "/" filename = false /\ ends_with filename s)).
  { subst filename. split; [|split].
    - intros -> ->. reflexivity.
    - intros p ->. reflexivity.
    - intros s -> Hs. simpl. destruct s as [|x s]; [congruence|].
      destruct (str_in "/" (String x s)) eqn:Hin.
      + apply last_field.
      + split; [exact Hin | exists EmptyString; reflexivity]. }
  exists filename.
  assert (Hfl : forall rs, filter is_callback (rev (map EvLog rs)) = []).
  { intros rs. induction rs as [|r rs IH]; [reflexivity|].
    simpl. rewrite filter_app, IH. reflexivity. }
  assert (Hinc : forall rs, incl (map EvLog rs) (rev (map EvLog rs))).
  { intros rs e He. apply in_rev. rewrite rev_involutive. exact He. }
  unfold bind at 1. unfold bind at 1. unfold emit at 1. rewrite log_all_run.
  cbv iota. simpl dirs. simpl trace. simpl next_ref. simpl cells.
  destruct (String.eqb status "finished").
  - exists (EvLog (LogRecord INFO "Finished: %s" [AStr filename] false)
              :: rev (map EvLog (cb c t filename status))).
    split; [unfold logger_info, log, emit, extend; simpl;
            rewrite <- app_assoc; reflexivity|].
    split; [simpl; apply Hfl|].
    split; [apply incl_tl, Hinc | exact Hf].
  - destruct (String.eqb status "downloading"
              && str_truthy (get_or (hd_percent_str d) EmptyString)).
    + exists (EvLog (LogRecord DEBUG "Progress: %s %s"
                       [AStr filename; AStr (get_or (hd_percent_str d) "")] false)
                :: rev (map EvLog (cb c t filename status))).
      split; [unfold logger_debug, log, emit, extend; simpl;
              rewrite <- app_assoc; reflexivity|].
      split; [simpl; apply Hfl|].
      split; [apply incl_tl, Hinc | exact Hf].
    + exists (rev (map EvLog (cb c t filename status))).
      split; [unfold ret, extend; simpl; rewrite <- app_assoc; reflexivity|].
      split; [apply Hfl|].
      split; [apply Hinc | exact Hf].
Qed.

(** X18. [_progress_hook] with a callback returns, and calls the callback
    exactly once, with the index and total it was given, the status of
    the dict (or "downloading" when it has none) and a file name that is
    the last component of the dict's file name: it holds no slash, and is
    "?" when the dict names neither file nor title. *)
Theorem _progress_hook_calls_back_once (self : YouTubeDownloadService)
    (cb : ProgressCallback) (d : hook_dict) (c : Z) (t : option Z) (st : state) :
  _progress_callback self = Some cb ->
  exists f logs,
    _progress_hook self d c t st
      = (Ok tt, extend st (logs ++ [EvCallback c t f (reported_status d)]))
    /\ filter is_callback logs = []
    /\ incl (map EvLog (cb c t f (reported_status d))) logs
    /\ (hd_filename d = None -> hd_title d = None -> f = "?"%string)
    /\ (forall p, hd_filename d = Some (PPath p) -> f = name p)
    /\ (forall s, hd_filename d = Some (PStr s) -> s <> EmptyString ->
          str_in "/" f = false /\ ends_with f s).
Proof. apply _progress_hook_called. Qed.

Lemma _progress_hook_calls_back_once_witness :
  exists f logs,
    _progress_hook Examples.audio_service
                   (Examples.progress "finished" "/music/Mix/a.webm") 1 (Some 5)
                   Examples.start
      = (Ok tt,
         extend Examples.start
           (logs ++ [EvCallback 1 (Some 5) f
                       (reported_status
                          (Examples.progress "finished" "/music/Mix/a.webm"))]))
    /\ filter is_callback logs = []
    /\ incl (map EvLog (progress_callback 1 (Some 5) f
                          (reported_status
                             (Examples.progress "finished" "/music/Mix/a.webm"))))
            logs
    /\ (hd_filename (Examples.progress "finished" "/music/Mix/a.webm") = None ->
        hd_title (Examples.progress "finished" "/music/Mix/a.webm") = None ->
        f = "?"%string)
    /\ (forall p, hd_filename (Examples.progress "finished" "/music/Mix/a.webm")
                  = Some (PPath p) -> f = name p)
    /\ (forall s, hd_filename (Examples.progress "finished" "/music/Mix/a.webm")
                  = Some (PStr s) -> s <> EmptyString ->
          str_in "/" f = false /\ ends_with f s).
Proof.
  apply (@_progress_hook_calls_back_once Examples.audio_service progress_callback
           (Examples.progress "finished" "/music/Mix/a.webm") 1 (Some 5)
           Examples.start).
  reflexivity.
Defined.

Lemma counts_as_file_cases (d : hook_dict) :
  counts_as_file d =
    String.eqb (get_or (hd_status d) "") "downloading"
    || String.eqb (get_or (hd_status d) "") "finished".
Proof. reflexivity. Qed.

(** X19. The closure [progress_hook] reports, for a file being downloaded
    and for a file just finished alike, the index "files finished before
    it, plus one"; a dict with any other status, or with none, repeats
    the index reported last.  It calls the callback once, with the total
    it captured. *)
Theorem progress_hook_reports_index (self : YouTubeDownloadService)
    (cb : ProgressCallback) (total : Z) (sc cur : nat) (d : hook_dict)
    (st : state) :
  sc <> cur ->
  _progress_callback self = Some cb ->
  let idx := if counts_as_file d then cells st sc + 1 else cells st cur in
  exists f logs cells',
    progress_hook self total sc cur d st
      = (Ok tt,
         State (dirs st)
               ((logs ++ [EvCallback idx (Some total) f (reported_status d)])
                  ++ trace st)
               (next_ref st) cells')
    /\ filter is_callback logs = []
    /\ cells' cur = idx
    /\ cells' sc = cells st sc + (if is_finished d then 1 else 0).
Proof.
  intros Hne Hcb idx. subst idx. rewrite counts_as_file_cases.
  assert (Hsc : Nat.eqb sc cur = false) by (apply Nat.eqb_neq; exact Hne).
  assert (Hcs : Nat.eqb cur sc = false)
    by (apply Nat.eqb_neq; intros H; apply Hne; symmetry; exact H).
  unfold progress_hook. rewrite <- is_finished_status.
  assert (Hx : String.eqb (get_or (hd_status d) "") "finished" = true ->
               String.eqb (get_or (hd_status d) "") "downloading" = false).
  { intros H. apply String.eqb_eq in H. rewrite H. reflexivity. }
  destruct (String.eqb (get_or (hd_status d) "") "finished") eqn:Hf;
    [rewrite (Hx eq_refl)
    |destruct (String.eqb (get_or (hd_status d) "") "downloading") eqn:Hd];
    run; rewrite ?Nat.eqb_refl, ?Hsc, ?Hcs;
    match goal with |- context [_progress_hook self d ?c ?t ?s] =>
      destruct (_progress_hook_called self d c t s Hcb)
        as (f & logs & E & Hl & _); rewrite E end;
    exists f, logs; eexists;
    (split; [reflexivity|]); (split; [exact Hl|]); simpl;
    rewrite ?Nat.eqb_refl, ?Hsc, ?Hcs; split; try reflexivity; lia.
Qed.

Lemma progress_hook_reports_index_witness :
  let st := State [] [] 2 (fun i => if Nat.eqb i 0 then 3 else 3) in
  let d := Examples.progress "downloading" "/music/Mix/d.webm" in
  let idx := if counts_as_file d then cells st 0%nat + 1 else cells st 1%nat in
  exists f logs cells',
    progress_hook Examples.audio_service 5 0 1 d st
      = (Ok tt,
         State (dirs st)
               ((logs ++ [EvCallback idx (Some 5) f (reported_status d)])
                  ++ trace st)
               (next_ref st) cells')
    /\ filter is_callback logs = []
    /\ cells' 1%nat = idx
    /\ cells' 0%nat = cells st 0%nat + (if is_finished d then 1 else 0).
Proof.
  apply (@progress_hook_reports_index Examples.audio_service progress_callback
           5 0 1 (Examples.progress "downloading" "/music/Mix/d.webm")
           (State [] [] 2 (fun i => if Nat.eqb i 0 then 3 else 3))).
  - discriminate.
  - reflexivity.
Defined.

(* ===================================================================== *)
(** ** Beyond the claims: the download step and the missing ffmpeg *)
(* ===================================================================== *)

(** X20. [run_download] does not catch what its constructor raises: when
    the output directory cannot be created the OSError escapes.  Once the
    service is constructed it never raises: it logs and returns 1 for the
    missing ffmpeg, and otherwise logs the two counts and returns 0 when
    the failure count is 0 and 1 when it is not; no directory is lost on
    the way. *)
Theorem run_download_outcomes (w : world) (u : string) (d : path) (v : bool)
    (st : state) :
  (forall e st1,
     ensure_output_dir w d st = (Raise e, st1) ->
     run_download w u d v st = (Raise e, st1))
  /\ forall st1,
       ensure_output_dir w d st = (Ok d, st1) ->
       exists code st',
         run_download w u d v st = (Ok code, st')
         /\ (forall b, dir_exists st1 b = true -> dir_exists st' b = true)
         /\ ((exists s f,
                fst (download w (cli_service d v) u st1) = Ok (s, f)
                /\ code = (if f =? 0 then 0 else 1)
                /\ In (EvLog (done_record s f)) (trace st'))
             \/ (exists m,
                   fst (download w (cli_service d v) u st1)
                   = Raise (RuntimeError m)
                   /\ code = 1
                   /\ In (EvLog (LogRecord ERROR "%s" [AExn (RuntimeError m)] false))
                         (trace st'))).
Proof.
  split.
  - intros e st1 E. unfold run_download, __init__.
    unfold bind at 1. unfold bind at 1. rewrite E. reflexivity.
  - intros st1 E. rewrite (@run_download_run w u d v st st1 E).
    pose proof (@download_keeps w (cli_service d v) u st1) as Hk.
    destruct (download_cases w (cli_service d v) u st1)
      as [(_ & _ & Ed) | [(_ & _ & Ed) | (_ & info & logs & c' & _ & _ & _ & Ed)]];
      simpl in Ed; rewrite Ed in Hk |- *.
    + do 2 eexists. split; [reflexivity|]. split; [exact Hk|].
      right. eexists. split; [reflexivity|]. split; [reflexivity|].
      left. reflexivity.
    + do 2 eexists. split; [reflexivity|]. split; [exact Hk|].
      left. do 2 eexists. split; [reflexivity|]. split; [reflexivity|].
      left. reflexivity.
    + do 2 eexists. split; [reflexivity|]. split; [exact Hk|].
      left. do 2 eexists. split; [reflexivity|]. split; [reflexivity|].
      left. reflexivity.
Qed.

Lemma run_download_outcomes_witness :
  exists code st',
    run_download Examples.host_three_of_five Examples.playlist_url Examples.music
                 false Examples.start = (Ok code, st')
    /\ (forall b, dir_exists Examples.start b = true -> dir_exists st' b = true)
    /\ ((exists s f,
           fst (download Examples.host_three_of_five
                  (cli_service Examples.music false) Examples.playlist_url
                  Examples.start) = Ok (s, f)
           /\ code = (if f =? 0 then 0 else 1)
           /\ In (EvLog (done_record s f)) (trace st'))
        \/ (exists m,
              fst (download Examples.host_three_of_five
                     (cli_service Examples.music false) Examples.playlist_url
                     Examples.start) = Raise (RuntimeError m)
              /\ code = 1
              /\ In (EvLog (LogRecord ERROR "%s" [AExn (RuntimeError m)] false))
                    (trace st'))).
Proof.
  apply (proj2 (@run_download_outcomes Examples.host_three_of_five
                  Examples.playlist_url Examples.music false Examples.start)).
  reflexivity.
Defined.

(** X21. A whole run in audio mode on a host without ffmpeg, with an
    accepted URL and an output directory that can be created: the
    directory is created, the missing program is reported, no network
    call is made, and the run ends with exit code 1. *)
Theorem main_missing_ffmpeg_exits_one (w : world) (args : Namespace)
    (st : state) (d : path) :
  is_valid_youtube_url (ObjStr (run_url w args)) = true ->
  main_output_dir w args st d ->
  (forall b, In b (ancestors w d) -> may_create w b = true) ->
  video args = false ->
  which w "ffmpeg" = None ->
  exists st' new,
    main w args st = (Ok 1, st')
    /\ trace st' = new ++ trace st
    /\ existsb is_network new = false
    /\ dir_exists st' (absolute w d) = true
    /\ In (EvLog (LogRecord ERROR "%s" [AExn (RuntimeError ffmpeg_message)] false))
          new.
Proof.
  intros Hv Hd Hc Hvid Hw.
  set (st1 := extend st (start_events args)).
  destruct (mkdir_each_shape w (ancestors w d) st1) as (r & made & Em & Hr & _).
  destruct Hr as [-> | ->].
  - assert (Ee : ensure_output_dir w d st1
                 = (Ok d, State (made ++ dirs st1) (map EvMkdir made ++ trace st1)
                                (next_ref st1) (cells st1))).
    { rewrite ensure_output_dir_unfold, Em. reflexivity. }
    rewrite (main_download_run w args st Hv Hd Ee).
    rewrite Hvid.
    rewrite (@ffmpeg_missing_raises w (cli_service d false) (run_url w args) _
               eq_refl Hw).
    do 2 eexists. split; [reflexivity|].
    split.
    + simpl. instantiate (1 :=
        EvLog (LogRecord ERROR "%s" [AExn (RuntimeError ffmpeg_message)] false)
          :: EvWhich "ffmpeg"
          :: run_logs (run_url w args) d args
          ++ map EvMkdir made ++ start_events args).
      simpl. rewrite <- !app_assoc. rewrite Hvid. reflexivity.
    + split; [simpl; rewrite existsb_app, existsb_map_mkdir, existsb_start_events
                by reflexivity; reflexivity|].
      split; [|left; reflexivity].
      rewrite <- (@ensure_ok_exists w d d st1 _
                    (main_output_dir_abs w args st d Hd) Ee). reflexivity.
  - exfalso. destruct (@mkdir_each_raise w _ _ _ _ Em) as (b & Hin & Hb & _).
    rewrite (Hc b Hin) in Hb. discriminate Hb.
Qed.

Lemma main_missing_ffmpeg_exits_one_witness :
  exists st' new,
    main (Examples.without_ffmpeg Examples.host_partial)
         (args_to Examples.playlist_url "/music/rock/live") Examples.start
      = (Ok 1, st')
    /\ trace st' = new ++ trace Examples.start
    /\ existsb is_network new = false
    /\ dir_exists st' (absolute (Examples.without_ffmpeg Examples.host_partial)
                                new_folder) = true
    /\ In (EvLog (LogRecord ERROR "%s" [AExn (RuntimeError ffmpeg_message)] false))
          new.
Proof.
  apply (@main_missing_ffmpeg_exits_one
           (Examples.without_ffmpeg Examples.host_partial)
           (args_to Examples.playlist_url "/music/rock/live") Examples.start
           new_folder).
  - reflexivity.
  - reflexivity.
  - intros b _. reflexivity.
  - reflexivity.
  - reflexivity.
Defined.

(* ===================================================================== *)
(** ** The exit code of a run *)
(* ===================================================================== *)

(** C1. The exit code of a run.  A URL that is missing or not accepted,
    and an output directory that cannot be created, end the run with exit
    code 1.  With an accepted URL and the output directory created, the
    download step decides: [main] returns, and the exit code is 0 exactly
    when [download] returned a pair that reports no failures; it is 1
    when the pair reports failures, and when [download] raised a
    RuntimeError, which is caught and logged with its message.  The
    missing ffmpeg of audio mode is such an error. *)
Theorem exit_code_zero_iff_no_failures (w : world) (args : Namespace)
    (st : state) :
  let u := run_url w args in
  (is_valid_youtube_url (ObjStr u) = false -> exit_code w args st = 1)
  /\ (forall d,
        is_valid_youtube_url (ObjStr u) = true ->
        main_output_dir w args st d ->
        blocked w st d ->
        exit_code w args st = 1)
  /\ forall d st1,
       is_valid_youtube_url (ObjStr u) = true ->
       main_output_dir w args st d ->
       ensure_output_dir w d (extend st (start_events args)) = (Ok d, st1) ->
       let r := fst (download w (cli_service d (video args)) u
                       (extend st1 (run_logs u d args))) in
       exists code st',
         main w args st = (Ok code, st')
         /\ exit_code w args st = code
         /\ (code = 0 \/ code = 1)
         /\ (code = 0 <-> exists s, r = Ok (s, 0))
         /\ (forall s f, r = Ok (s, f) -> f <> 0 -> code = 1)
         /\ (forall m, r = Raise (RuntimeError m) ->
               code = 1
               /\ In (EvLog (LogRecord ERROR "%s" [AExn (RuntimeError m)] false))
                     (trace st'))
         /\ (video args = false -> which w "ffmpeg" = None ->
               r = Raise (RuntimeError ffmpeg_message)).
Proof.
  intros u. subst u. split; [|split].
  - intros Hv. unfold exit_code. rewrite (main_invalid_run w args st Hv).
    reflexivity.
  - intros d Hv Hd (b & Hin & Hc & Hm).
    unfold exit_code. rewrite (main_valid_run w args st d Hv Hd).
    destruct (@mkdir_each_blocked w _ (extend st (start_events args)) b Hin Hc Hm)
      as [st2 E].
    rewrite ensure_output_dir_unfold, E. reflexivity.
  - intros d st1 Hv Hd Ee r.
    assert (Hff : video args = false -> which w "ffmpeg" = None ->
                  r = Raise (RuntimeError ffmpeg_message)).
    { intros Hvid Hw. subst r. rewrite Hvid.
      rewrite (@ffmpeg_missing_raises w (cli_service d false) (run_url w args) _
                 eq_refl Hw). reflexivity. }
    unfold exit_code. rewrite (main_download_run w args st Hv Hd Ee).
    subst r.
    destruct (download w (cli_service d (video args)) (run_url w args)
                (extend st1 (run_logs (run_url w args) d args)))
      as [[[s f]|e] st4] eqn:Ed; simpl fst in *.
    + do 2 eexists. split; [reflexivity|]. split; [reflexivity|].
      destruct (Z.eqb_spec f 0) as [-> | Hf].
      * split; [auto|]. split; [split; eauto|].
        split; [intros s' f' H Hne; inversion H; congruence|].
        split; [intros m H; discriminate H | exact Hff].
      * split; [auto|]. split.
        { split; [discriminate|]. intros [s' H]. inversion H. congruence. }
        split; [reflexivity|].
        split; [intros m H; discriminate H | exact Hff].
    + destruct (download_cases w (cli_service d (video args)) (run_url w args)
                  (extend st1 (run_logs (run_url w args) d args)))
        as [(_ & _ & Ec) | [(_ & _ & Ec) | (_ & info & logs & c' & _ & _ & _ & Ec)]];
        simpl in Ec; rewrite Ec in Ed; inversion Ed; subst e st4.
      do 2 eexists. split; [reflexivity|]. split; [reflexivity|].
      split; [auto|]. split.
      { split; [discriminate|]. intros [s' H]. discriminate H. }
      split; [intros s' f' H; discriminate H|].
      split; [|exact Hff].
      intros m H. inversion H; subst m. split; [reflexivity|]. left. reflexivity.
Qed.

Lemma exit_code_zero_iff_no_failures_witness :
  let w := Examples.host_three_of_five in
  let args := Examples.cli_args Examples.playlist_url in
  let st1 := extend Examples.start (start_events args) in
  let r := fst (download w (cli_service Examples.music (video args)) (run_url w args)
                  (extend st1 (run_logs (run_url w args) Examples.music args))) in
  exists code st',
    main w args Examples.start = (Ok code, st')
    /\ exit_code w args Examples.start = code
    /\ (code = 0 \/ code = 1)
    /\ (code = 0 <-> exists s, r = Ok (s, 0))
    /\ (forall s f, r = Ok (s, f) -> f <> 0 -> code = 1)
    /\ (forall m, r = Raise (RuntimeError m) ->
          code = 1
          /\ In (EvLog (LogRecord ERROR "%s" [AExn (RuntimeError m)] false))
                (trace st'))
    /\ (video args = false -> which w "ffmpeg" = None ->
          r = Raise (RuntimeError ffmpeg_message)).
Proof.
  apply (proj2 (proj2 (@exit_code_zero_iff_no_failures Examples.host_three_of_five
                         (Examples.cli_args Examples.playlist_url) Examples.start))
           Examples.music
           (extend Examples.start
              (start_events (Examples.cli_args Examples.playlist_url)))).
  - reflexivity.
  - reflexivity.
  - reflexivity.
Defined.
